(** * SCD Type 2 pipeline ([scd_pipeline.py]): model and properties

    A shallow embedding of the change-detection core of the pipeline:
    [generate_hash] (the fingerprint of the monitored columns) and the row
    processing loop of [run_scd_pipeline] (lookup of the current version,
    three-way classification, expire-then-insert), together with the
    transactional behaviour of the [sqlite3] connection it runs on; then
    the call as a whole, from the loading of the configuration on, and
    [verify_setup] of [create_database.py].

    Conventions.
    - A Python [str] is a Rocq [string] holding its UTF-8 bytes, so that
      [s.encode()] is the identity on the bytes.
    - A SQLite scalar is NULL, an INTEGER or a TEXT ([value]); REAL and BLOB
      columns are outside the model (their [str()] is floating-point
      formatting and byte-literal quoting).
    - A source row ([dict(row)]) is a finite map from column names to
      values; the history table is the list of its rows in rowid order. *)

From stdpp Require Import base gmap list strings pretty.
From Stdlib Require Import ZArith Lia.

Local Open Scope Z_scope.

(** ** SQLite values as seen from Python *)

Inductive value : Type :=
  | VNull
  | VInt (z : Z)
  | VText (s : string).

#[global] Instance value_eq_dec : EqDecision value.
Proof. solve_decision. Defined.

(** [str(v)]: [None] prints as "None", an integer in decimal, a string as
    itself. *)
Definition py_str (v : value) : string :=
  match v with
  | VNull => "None"
  | VInt z => pretty z
  | VText s => s
  end.

(** [sep.join(l)] *)
Fixpoint str_join (sep : string) (l : list string) : string :=
  match l with
  | [] => ""
  | [s] => s
  | s :: rest => s +:+ sep +:+ str_join sep rest
  end.

(** ** [hashlib.md5(...).hexdigest()] (RFC 1321), on 32-bit words in [Z] *)

Module MD5.

Definition mask32 : Z := 0xffffffff.
Definition add32 (x y : Z) : Z := (x + y) mod 2 ^ 32.
Definition not32 (x : Z) : Z := Z.lxor x mask32.
Definition rotl32 (x s : Z) : Z :=
  Z.lor (Z.land (Z.shiftl x s) mask32) (Z.shiftr x (32 - s)).

Definition K : list Z :=
  [ 0xd76aa478; 0xe8c7b756; 0x242070db; 0xc1bdceee;
    0xf57c0faf; 0x4787c62a; 0xa8304613; 0xfd469501;
    0x698098d8; 0x8b44f7af; 0xffff5bb1; 0x895cd7be;
    0x6b901122; 0xfd987193; 0xa679438e; 0x49b40821;
    0xf61e2562; 0xc040b340; 0x265e5a51; 0xe9b6c7aa;
    0xd62f105d; 0x02441453; 0xd8a1e681; 0xe7d3fbc8;
    0x21e1cde6; 0xc33707d6; 0xf4d50d87; 0x455a14ed;
    0xa9e3e905; 0xfcefa3f8; 0x676f02d9; 0x8d2a4c8a;
    0xfffa3942; 0x8771f681; 0x6d9d6122; 0xfde5380c;
    0xa4beea44; 0x4bdecfa9; 0xf6bb4b60; 0xbebfbc70;
    0x289b7ec6; 0xeaa127fa; 0xd4ef3085; 0x04881d05;
    0xd9d4d039; 0xe6db99e5; 0x1fa27cf8; 0xc4ac5665;
    0xf4292244; 0x432aff97; 0xab9423a7; 0xfc93a039;
    0x655b59c3; 0x8f0ccc92; 0xffeff47d; 0x85845dd1;
    0x6fa87e4f; 0xfe2ce6e0; 0xa3014314; 0x4e0811a1;
    0xf7537e82; 0xbd3af235; 0x2ad7d2bb; 0xeb86d391 ].

Definition S : list Z :=
  [ 7; 12; 17; 22; 7; 12; 17; 22; 7; 12; 17; 22; 7; 12; 17; 22;
    5; 9; 14; 20; 5; 9; 14; 20; 5; 9; 14; 20; 5; 9; 14; 20;
    4; 11; 16; 23; 4; 11; 16; 23; 4; 11; 16; 23; 4; 11; 16; 23;
    6; 10; 15; 21; 6; 10; 15; 21; 6; 10; 15; 21; 6; 10; 15; 21 ].

(** The four chaining words A, B, C, D. *)
Definition state : Type := Z * Z * Z * Z.

Definition init : state :=
  (0x67452301, 0xefcdab89, 0x98badcfe, 0x10325476).

Definition bytes_of_string (s : string) : list Z :=
  (fun a => Z.of_N (Ascii.N_of_ascii a)) <$> String.list_ascii_of_string s.

(** Little-endian bytes of a number, [n] of them. *)
Fixpoint le_bytes (n : nat) (x : Z) : list Z :=
  match n with
  | O => []
  | Datatypes.S n' => x mod 256 :: le_bytes n' (x / 256)
  end.

Fixpoint le_word (bs : list Z) : Z :=
  match bs with
  | [] => 0
  | b :: bs' => b + 256 * le_word bs'
  end.

(** Message, then 0x80, then zeros up to 56 mod 64, then the bit length
    on 8 bytes. *)
Definition pad (msg : list Z) : list Z :=
  let len := Z.of_nat (length msg) in
  let zeros := Z.to_nat ((55 - len) mod 64) in
  msg ++ 0x80 :: replicate zeros 0 ++ le_bytes 8 ((8 * len) mod 2 ^ 64).

Definition step (M : list Z) (st : state) (i : Z) : state :=
  let '(a, b, c, d) := st in
  let '(f, g) :=
    if i <? 16 then (Z.lor (Z.land b c) (Z.land (not32 b) d), i)
    else if i <? 32 then
      (Z.lor (Z.land d b) (Z.land (not32 d) c), (5 * i + 1) mod 16)
    else if i <? 48 then (Z.lxor b (Z.lxor c d), (3 * i + 5) mod 16)
    else (Z.lxor c (Z.lor b (not32 d)), (7 * i) mod 16) in
  let f' :=
    add32 (add32 (add32 f a) (K !!! Z.to_nat i)) (M !!! Z.to_nat g) in
  (d, add32 b (rotl32 f' (S !!! Z.to_nat i)), b, c).

Definition block_words (blk : list Z) : list Z :=
  (fun j : nat => le_word (take 4 (drop (4 * j) blk))) <$> seq 0 16.

Definition compress (st : state) (blk : list Z) : state :=
  let '(a0, b0, c0, d0) := st in
  let '(a, b, c, d) := foldl (step (block_words blk)) st (seqZ 0 64) in
  (add32 a0 a, add32 b0 b, add32 c0 c, add32 d0 d).

Fixpoint blocks (n : nat) (st : state) (bs : list Z) : state :=
  match n with
  | O => st
  | Datatypes.S n' => blocks n' (compress st (take 64 bs)) (drop 64 bs)
  end.

Definition digest (msg : list Z) : state :=
  let p := pad msg in
  blocks (length p / 64)%nat init p.

Definition hex_digit (n : Z) : Ascii.ascii :=
  Ascii.ascii_of_N (Z.to_N (if n <? 10 then 48 + n else 87 + n)).

Definition hex_byte (b : Z) (rest : string) : string :=
  String (hex_digit (b / 16 mod 16)) (String (hex_digit (b mod 16)) rest).

Definition hex_word (w : Z) (rest : string) : string :=
  hex_byte w (hex_byte (w / 2 ^ 8) (hex_byte (w / 2 ^ 16)
    (hex_byte (w / 2 ^ 24) rest))).

Definition hexdigest (s : string) : string :=
  let '(a, b, c, d) := digest (bytes_of_string s) in
  hex_word a (hex_word b (hex_word c (hex_word d ""))).

End MD5.

(** ** [generate_hash] *)

(** [row[attr]] raises [KeyError] when the column is absent: [None] here. *)
Definition combined_string (row : gmap string value)
    (attributes : list string) : option string :=
  str_join "-" <$> mapM (fun attr => py_str <$> row !! attr) attributes.

Definition generate_hash (row : gmap string value)
    (attributes : list string) : option string :=
  MD5.hexdigest <$> combined_string row attributes.

(** ** The history table and the connection *)

(** A row of the history table: the columns it shares with the source and
    the four audit columns. *)
Record hrow : Type := HRow {
  cols : gmap string value;
  row_hash : value;
  row_start_date : value;
  row_end_date : value;
  is_current : value
}.

#[global] Instance hrow_eq_dec : EqDecision hrow.
Proof. solve_decision. Defined.

(** A column that was never written reads as NULL. *)
Definition hkey (pk : string) (r : hrow) : value :=
  default VNull (cols r !! pk).

(** SQL [=] in a WHERE clause: a comparison with NULL is never true;
    other values are compared as they are stored (an INTEGER and a TEXT
    are never equal). *)
Definition sql_eq (a b : value) : bool :=
  match a, b with
  | VNull, _ | _, VNull => false
  | _, _ => bool_decide (a = b)
  end.

(** Python [!=] *)
Definition py_ne (a b : value) : bool := negb (bool_decide (a = b)).

(** [WHERE {pk} = ? AND is_current = 1] *)
Definition is_current_of (pk : string) (k : value) (r : hrow) : bool :=
  sql_eq (hkey pk r) k && sql_eq (is_current r) (VInt 1).

(** [fetchone()]: the first row of a result, [None] when the result is
    empty. The SELECT of the pipeline has no ORDER BY, so which of the
    matching rows comes first is the store's choice: [choose] gives it, as
    a position among the matching rows (taken modulo their number). The
    store decides by the rows that match, so the same rows matching again
    give the same choice. *)
Definition fetchone (choose : list hrow -> nat) (rows : list hrow)
    : option hrow :=
  rows !! (choose rows mod length rows)%nat.

(** A [sqlite3] connection on the history table: what is committed, what
    the open transaction (if any) sees, and how many statements it has
    been given. *)
Record conn : Type := Conn {
  persisted : list hrow;
  pending : option (list hrow);
  stmts : nat
}.

Definition connect (db : list hrow) : conn := Conn db None 0.

(** What a statement on the connection reads. *)
Definition view (c : conn) : list hrow := default (persisted c) (pending c).

Definition tick (c : conn) : conn :=
  Conn (persisted c) (pending c) (S (stmts c)).

(** A write opens a transaction when none is open. *)
Definition write (t : list hrow) (c : conn) : conn :=
  Conn (persisted c) (Some t) (S (stmts c)).

Definition rollback (c : conn) : conn := Conn (persisted c) None (stmts c).

(** Closing discards whatever was not committed. *)
Definition close (c : conn) : conn := Conn (persisted c) None (stmts c).

Inductive exn : Type :=
  | KeyError
  | SqliteError.

Inductive res (A : Type) : Type :=
  | Ok (a : A) (c : conn)
  | Raise (e : exn) (c : conn).
Arguments Ok {A} a c.
Arguments Raise {A} e c.

Definition M (A : Type) : Type := conn -> res A.

#[global] Instance M_ret : MRet M := fun A a c => Ok a c.
#[global] Instance M_bind : MBind M := fun A B f m c =>
  match m c with
  | Ok a c' => f a c'
  | Raise e c' => Raise e c'
  end.

(** A Python lookup that may raise [KeyError]. *)
Definition subscript {A} (o : option A) : M A := fun c =>
  match o with
  | Some a => Ok a c
  | None => Raise KeyError c
  end.

Definition expiry_time : string := "9999-12-31 23:59:59".

Definition expire (current_time : string) (r : hrow) : hrow :=
  HRow (cols r) (row_hash r) (row_start_date r) (VText current_time) (VInt 0).

(** What the UPDATE of the pipeline does to the table. *)
Definition close_current (pk : string) (k : value) (current_time : string)
    (t : list hrow) : list hrow :=
  (fun r => if is_current_of pk k r then expire current_time r else r) <$> t.

Definition new_version (src_row : gmap string value) (src_hash : string)
    (current_time : string) : hrow :=
  HRow src_row (VText src_hash) (VText current_time) (VText expiry_time)
    (VInt 1).

Record counters : Type := Counters {
  c_new : nat;
  c_changed : nat;
  c_unchanged : nat
}.

Record summary : Type := Summary {
  new_count : nat;
  changed_count : nat;
  unchanged_count : nat;
  total_count : nat
}.

Inductive outcome : Type :=
  | Returned (s : summary) (c : conn)
  | Failed (e : exn) (c : conn).

(** The history table as found in the database after the call. *)
Definition database (o : outcome) : list hrow :=
  match o with
  | Returned _ c | Failed _ c => persisted c
  end.

Section Store.

(** Which statements the store fails: the [n]-th statement given to the
    connection raises [sqlite3.Error] when [fault n] holds. *)
Variable fault : nat -> bool.

(** Which of the rows that match a lookup the store returns first. *)
Variable choose : list hrow -> nat.

Definition statement {A} (run : conn -> res A) : M A := fun c =>
  if fault (stmts c) then Raise SqliteError (tick c) else run c.

(** [SELECT row_hash FROM history WHERE {pk} = ? AND is_current = 1]
    followed by [fetchone()]. *)
Definition select_row_hash (pk : string) (k : value) : M (option value) :=
  statement (fun c =>
    Ok (row_hash <$>
          fetchone choose (filter (fun r => is_current_of pk k r) (view c)))
       (tick c)).

(** [UPDATE history SET row_end_date = ?, is_current = 0
     WHERE {pk} = ? AND is_current = 1] *)
Definition update_expire (pk : string) (k : value) (current_time : string)
    : M unit :=
  statement (fun c =>
    Ok tt (write (close_current pk k current_time (view c)) c)).

(** [INSERT INTO history (...) VALUES (...)] *)
Definition insert_row (r : hrow) : M unit :=
  statement (fun c => Ok tt (write (view c ++ [r]) c)).

Definition commit : M unit :=
  statement (fun c => Ok tt (Conn (view c) None (S (stmts c)))).

(** The body of the loop over [source_rows]. *)
Definition process_row (pk : string) (changing_attrs : list string)
    (current_time : string) (cnt : counters)
    (src_row : gmap string value) : M counters :=
  src_pk_val ← subscript (src_row !! pk);
  src_hash ← subscript (generate_hash src_row changing_attrs);
  tgt_record ← select_row_hash pk src_pk_val;
  match tgt_record with
  | None =>
      insert_row (new_version src_row src_hash current_time);;
      mret (Counters (S (c_new cnt)) (c_changed cnt) (c_unchanged cnt))
  | Some tgt_hash =>
      if py_ne tgt_hash (VText src_hash) then
        update_expire pk src_pk_val current_time;;
        insert_row (new_version src_row src_hash current_time);;
        mret (Counters (c_new cnt) (S (c_changed cnt)) (c_unchanged cnt))
      else
        mret (Counters (c_new cnt) (c_changed cnt) (S (c_unchanged cnt)))
  end.

Fixpoint process_rows (pk : string) (changing_attrs : list string)
    (current_time : string) (cnt : counters)
    (source_rows : list (gmap string value)) : M counters :=
  match source_rows with
  | [] => mret cnt
  | src_row :: rest =>
      cnt' ← process_row pk changing_attrs current_time cnt src_row;
      process_rows pk changing_attrs current_time cnt' rest
  end.

(** Steps 4 to 6 of [run_scd_pipeline], on a fresh connection to a
    database whose history table is [db], with the configuration
    ([pk], [changing_attrs]), the extracted [source_rows] and the
    formatted clock reading [current_time] as inputs. Only
    [sqlite3.Error] is caught (rollback, close, re-raise); any other
    exception leaves the function with the transaction uncommitted. *)
Definition run_scd_pipeline (pk : string) (changing_attrs : list string)
    (source_rows : list (gmap string value)) (current_time : string)
    (db : list hrow) : outcome :=
  match process_rows pk changing_attrs current_time (Counters 0 0 0)
          source_rows (connect db) with
  | Raise SqliteError c => Failed SqliteError (close (rollback c))
  | Raise e c => Failed e c
  | Ok cnt c =>
      match commit c with
      | Raise SqliteError c' => Failed SqliteError (close (rollback c'))
      | Raise e c' => Failed e c'
      | Ok _ c' =>
          Returned (Summary (c_new cnt) (c_changed cnt) (c_unchanged cnt)
                      (length source_rows))
                   (close c')
      end
  end.

End Store.

Definition no_faults : nat -> bool := fun _ => false.

(** The store that returns the matching row of lowest rowid, and the one
    that returns the matching row of highest rowid. *)
Definition first_match : list hrow -> nat := fun _ => 0%nat.

Definition last_match : list hrow -> nat := fun rows => pred (length rows).

(** The store that fails its [n]-th statement and no other. *)
Definition fault_at (n : nat) : nat -> bool := fun m => bool_decide (m = n).

(** ** Vocabulary of the properties *)

(** [new_count += 1], [changed_count += 1], [unchanged_count += 1] *)
Definition bump_new (cnt : counters) : counters :=
  Counters (S (c_new cnt)) (c_changed cnt) (c_unchanged cnt).

Definition bump_changed (cnt : counters) : counters :=
  Counters (c_new cnt) (S (c_changed cnt)) (c_unchanged cnt).

Definition bump_unchanged (cnt : counters) : counters :=
  Counters (c_new cnt) (c_changed cnt) (S (c_unchanged cnt)).

(** The effect of one source row with key [k] and digest [h] on the table
    and the counters, as a transition relation; [r] is the row the lookup
    returns. *)
Inductive row_step (choose : list hrow -> nat) (pk ts : string)
    (src : gmap string value) (k : value) (h : string)
    : list hrow -> counters -> list hrow -> counters -> Prop :=
  | step_new t cnt :
      filter (fun r => is_current_of pk k r) t = [] ->
      row_step choose pk ts src k h t cnt (t ++ [new_version src h ts])
        (bump_new cnt)
  | step_changed t cnt r :
      fetchone choose (filter (fun r => is_current_of pk k r) t) = Some r ->
      row_hash r <> VText h ->
      row_step choose pk ts src k h t cnt
        (close_current pk k ts t ++ [new_version src h ts]) (bump_changed cnt)
  | step_unchanged t cnt r :
      fetchone choose (filter (fun r => is_current_of pk k r) t) = Some r ->
      row_hash r = VText h ->
      row_step choose pk ts src k h t cnt t (bump_unchanged cnt).

(** The connection a computation ends on, whether it returned or raised. *)
Definition res_conn {A} (r : res A) : conn :=
  match r with
  | Ok _ c | Raise _ c => c
  end.

(** What a run may do to a row that was in the table before: nothing, or,
    when the row was current, set [row_end_date] and clear [is_current];
    the other columns are as they were. *)
Definition audit_only (ts : string) (r r' : hrow) : Prop :=
  cols r' = cols r /\ row_hash r' = row_hash r /\
  row_start_date r' = row_start_date r /\
  (r' = r \/
   (is_current r = VInt 1 /\ row_end_date r' = VText ts /\
    is_current r' = VInt 0)).

(** The same, by the function the UPDATE applies. *)
Definition closed_or_same (ts : string) (r r' : hrow) : Prop :=
  r' = r \/ (is_current r = VInt 1 /\ r' = expire ts r).

(** How many rows of the table carry the key value [k] and are current. *)
Definition current_count (pk : string) (k : value) (t : list hrow) : nat :=
  length (filter (fun r => hkey pk r = k /\ is_current r = VInt 1) t).

(** Every key value present in the table has exactly one current row. *)
Definition current_unique (pk : string) (t : list hrow) : Prop :=
  Forall (fun r => current_count pk (hkey pk r) t = 1%nat) t.

(** The columns the configuration names are in the row. *)
Definition has_columns (pk : string) (attrs : list string)
    (row : gmap string value) : Prop :=
  is_Some (row !! pk) /\ Forall (fun a => is_Some (row !! a)) attrs.

(** The lookup for the row's key returns a version with the row's
    digest. *)
Definition settled (choose : list hrow -> nat) (pk : string)
    (attrs : list string) (t : list hrow) (row : gmap string value) : Prop :=
  exists k h r,
    row !! pk = Some k /\ generate_hash row attrs = Some h /\
    fetchone choose (filter (fun r => is_current_of pk k r) t) = Some r /\
    row_hash r = VText h.

(** The words of the design: the strings in the configured order, with a
    hyphen between consecutive ones. *)
Definition hyphenated (l : list string) : string :=
  match l with
  | [] => ""
  | s :: rest => foldl (fun acc x => acc +:+ "-" +:+ x) s rest
  end.

(** ** Sample data: the sales records of the examples *)

Definition sample_attrs : list string := ["name"; "price"].

Definition widget : gmap string value :=
  {[ "id" := VInt 1; "name" := VText "Widget"; "price" := VInt 999 ]}.

Definition widget_repriced : gmap string value :=
  {[ "id" := VInt 1; "name" := VText "Widget"; "price" := VInt 1299 ]}.

Definition gadget : gmap string value :=
  {[ "id" := VInt 2; "name" := VText "Gadget"; "price" := VInt 2500 ]}.

Definition gadget_repriced : gmap string value :=
  {[ "id" := VInt 2; "name" := VText "Gadget"; "price" := VInt 2400 ]}.

Definition anonymous : gmap string value :=
  {[ "id" := VNull; "name" := VText "Sample"; "price" := VInt 5 ]}.

Definition widget_hash : string := "e8b3ee2f74087f99e43ec424b602dce9".

(** A history table in which the widget has two current versions. *)
Definition corrupted : list hrow :=
  [new_version widget widget_hash "2026-01-18 09:00:00";
   new_version widget widget_hash "2026-01-19 09:00:00"].

(** ** The whole call: configuration, connection, extraction *)

Definition SOURCE_TABLE : string := "sales_records".

Definition TARGET_TABLE : string := SOURCE_TABLE +:+ "_cdc".

(** What [changing_attributes] holds: a value that yields strings when
    iterated (the names it yields), or a value that [', '.join] rejects
    with [TypeError]. *)
Inductive attr_names : Type :=
  | Names (l : list string)
  | NotNames.

(** The configuration document once parsed: an object in which
    ["primary_key"], when present, is a string. *)
Record config : Type := Config {
  primary_key : option string;
  changing_attributes : option attr_names
}.

(** What reading the configuration file gives: [open] raises
    [FileNotFoundError], [json.load] raises [JSONDecodeError], or the
    document is parsed. *)
Inductive loaded : Type :=
  | NoSuchFile
  | InvalidJson
  | Parsed (conf : config).

(** What the call raises before it has a connection: the two errors of
    the loading, [KeyError] for a missing key, [TypeError] of the join,
    [sqlite3.Error] of [sqlite3.connect]. *)
Inductive startup_error : Type :=
  | FileNotFoundError
  | JSONDecodeError
  | MissingKey
  | NotJoinable
  | CannotConnect.

(** How a call ends: with an exception raised before it has a connection,
    or on a connection. *)
Inductive call_outcome : Type :=
  | NotConnected (e : startup_error)
  | Connected (o : outcome).

(** The history table as found in the database after the call. *)
Definition call_database (db : list hrow) (o : call_outcome) : list hrow :=
  match o with
  | NotConnected _ => db
  | Connected o => database o
  end.

(** Steps 1 to 6 of [run_scd_pipeline]: the loading of the configuration,
    its two checks, the join of the monitored names for the log line, the
    connection ([can_connect] tells whether the database can be opened),
    the extraction of the source rows (the first statement; when it fails
    the connection is closed and the error raised again), then the loop,
    the commit and the summary. [source_rows] is what
    [SELECT * FROM source] returns. *)
Definition run_scd_pipeline_from_config (fault : nat -> bool)
    (choose : list hrow -> nat) (file : loaded) (can_connect : bool)
    (source_rows : list (gmap string value)) (current_time : string)
    (db : list hrow) : call_outcome :=
  match file with
  | NoSuchFile => NotConnected FileNotFoundError
  | InvalidJson => NotConnected JSONDecodeError
  | Parsed conf =>
  match primary_key conf with
  | None => NotConnected MissingKey
  | Some pk =>
  match changing_attributes conf with
  | None => NotConnected MissingKey
  | Some NotNames => NotConnected NotJoinable
  | Some (Names changing_attrs) =>
  if negb can_connect then NotConnected CannotConnect else
  match statement fault (fun c => Ok source_rows (tick c)) (connect db) with
  | Raise e c => Connected (Failed e (close c))
  | Ok source_rows c0 =>
      Connected
        match process_rows fault choose pk changing_attrs current_time
                (Counters 0 0 0) source_rows c0 with
        | Raise SqliteError c => Failed SqliteError (close (rollback c))
        | Raise e c => Failed e c
        | Ok cnt c =>
            match commit fault c with
            | Raise SqliteError c' => Failed SqliteError (close (rollback c'))
            | Raise e c' => Failed e c'
            | Ok _ c' =>
                Returned
                  (Summary (c_new cnt) (c_changed cnt) (c_unchanged cnt)
                     (length source_rows))
                  (close c')
            end
        end
  end
  end
  end
  end.

(** The same outcome on a connection that has been given [k] statements
    more. *)
Definition later (k : nat) (c : conn) : conn :=
  Conn (persisted c) (pending c) (k + stmts c).

Definition res_later {A} (k : nat) (r : res A) : res A :=
  match r with
  | Ok a c => Ok a (later k c)
  | Raise e c => Raise e (later k c)
  end.

Definition outcome_later (k : nat) (o : outcome) : outcome :=
  match o with
  | Returned s c => Returned s (later k c)
  | Failed e c => Failed e (later k c)
  end.

(** ** [verify_setup] of the set-up script *)

(** The schema of a database: its tables, each with the names of its
    columns in order. *)
Definition audit_names : list string :=
  ["row_hash"; "row_start_date"; "row_end_date"; "is_current"].

Definition setup_tables : list string :=
  ["sales_records_current"; "sales_records_cdc"].

(** The [try] block of [verify_setup]: four statements on the
    connection; [False] when the two tables are not both there, when the
    history table lacks an audit column, or when a statement raises
    [sqlite3.Error]. *)
Definition verify_setup_checks (fault : nat -> bool)
    (schema : gmap string (list string)) : bool :=
  if fault 0%nat then false else
  let tables :=
    filter (fun name => name ∈ setup_tables) (elements (dom schema)) in
  if negb (bool_decide (length tables = 2%nat)) then false else
  if fault 1%nat then false else
  if fault 2%nat then false else
  let cdc_columns := default [] (schema !! "sales_records_cdc") in
  let audit_columns := filter (fun col => col ∈ audit_names) cdc_columns in
  if negb (bool_decide (length audit_columns = 4%nat)) then false else
  if fault 3%nat then false else
  true.

(** What [verify_setup] does: it raises, or it answers. *)
Inductive verdict : Type :=
  | VerifyRaised
  | Verdict (ok : bool).

(** [verify_setup]: [sqlite3.connect] comes before the [try] block, so
    its [sqlite3.Error] is raised to the caller; the rest answers. *)
Definition verify_setup (can_connect : bool) (fault : nat -> bool)
    (schema : gmap string (list string)) : verdict :=
  if negb can_connect then VerifyRaised
  else Verdict (verify_setup_checks fault schema).

(** ** Vocabulary of the further properties *)

(** The last row of the source that carries the key value [k]. *)
Definition last_source_row (pk : string) (k : value)
    (src : list (gmap string value)) : option (gmap string value) :=
  last (filter (fun row : gmap string value => row !! pk = Some k) src).

(** The current flag and the validity end agree: a row is current exactly
    when its [row_end_date] is the far-future sentinel. *)
Definition flag_consistent (t : list hrow) : Prop :=
  Forall (fun r => is_current r = VInt 1 <-> row_end_date r = VText expiry_time)
    t.

(** The rows of one table: every row has the same columns. *)
Definition same_columns (rows : list (gmap string value)) : Prop :=
  forall r1 r2, r1 ∈ rows -> r2 ∈ rows -> dom r1 = dom r2.

(** No key value has more than one current row. *)
Definition current_at_most_one (pk : string) (t : list hrow) : Prop :=
  forall k, (current_count pk k t <= 1)%nat.

(** A row the run has appended, copied from the source row [row]: as it
    was inserted, or closed again later in the same run. *)
Definition version_of (attrs : list string) (ts : string)
    (row : gmap string value) (r : hrow) : Prop :=
  exists h,
    generate_hash row attrs = Some h /\
    (r = new_version row h ts \/ r = expire ts (new_version row h ts)).

(** Two records whose texts differ by where the hyphen falls. *)
Definition wifi_6e : gmap string value :=
  {[ "name" := VText "Wi-Fi"; "model" := VText "6E" ]}.

Definition wi_fi6e : gmap string value :=
  {[ "name" := VText "Wi"; "model" := VText "Fi-6E" ]}.

(** The widget with a column that is not monitored, at two values. *)
Definition widget_in_stock : gmap string value :=
  {[ "id" := VInt 1; "name" := VText "Widget"; "price" := VInt 999;
     "stock" := VInt 3 ]}.

Definition widget_restocked : gmap string value :=
  {[ "id" := VInt 1; "name" := VText "Widget"; "price" := VInt 999;
     "stock" := VInt 7 ]}.

(** A history table in which the widget has two current versions with
    different digests. *)
Definition two_prices : list hrow :=
  [new_version widget_repriced "41206b82a86ef9f2995310bee2f388b4"
     "2026-01-18 09:00:00";
   new_version widget widget_hash "2026-01-19 09:00:00"].

(** A history table with a current row that has no key. *)
Definition keyless : list hrow :=
  [new_version anonymous "2d560e9e02ac1f39e89652b880002c5d"
     "2026-01-19 09:00:00"].

(** A history table, and the same after a run in which the widget has a
    new price. *)
Definition history_day1 : list hrow :=
  [new_version widget widget_hash "2026-01-19 09:00:00";
   new_version gadget "fd2d34f1dfe107c8125fdfb28a5e8563"
     "2026-01-19 09:00:00"].

Definition history_day2 : list hrow :=
  [expire "2026-01-20 09:00:00"
     (new_version widget widget_hash "2026-01-19 09:00:00");
   new_version gadget "fd2d34f1dfe107c8125fdfb28a5e8563"
     "2026-01-19 09:00:00";
   new_version widget_repriced "41206b82a86ef9f2995310bee2f388b4"
     "2026-01-20 09:00:00"].

(** Two rows of a source table that has no name column. *)
Definition nameless : gmap string value :=
  {[ "id" := VInt 3; "price" := VInt 10 ]}.

Definition nameless_too : gmap string value :=
  {[ "id" := VInt 4; "price" := VInt 12 ]}.

(** A schema as the set-up script leaves it, without the table the
    pipeline reads its source rows from. *)
Definition setup_schema : gmap string (list string) :=
  {[ "sales_records_current" := ["id"; "name"; "price"];
     "sales_records_cdc" :=
       ["id"; "name"; "price"; "row_hash"; "row_start_date"; "row_end_date";
        "is_current"] ]}.

(** * Properties *)

(** ** The digest function on the test vectors of RFC 1321 *)

Example md5_empty : MD5.hexdigest "" = "d41d8cd98f00b204e9800998ecf8427e".
Proof. vm_compute. reflexivity. Qed.

Example md5_abc : MD5.hexdigest "abc" = "900150983cd24fb0d6963f7d28e17f72".
Proof. vm_compute. reflexivity. Qed.

Example md5_two_blocks :
  MD5.hexdigest
    "12345678901234567890123456789012345678901234567890123456789012345678901234567890"
  = "57edf4a22be3c955ac49da2e2107b67a".
Proof. vm_compute. reflexivity. Qed.

(** In what follows [choose] is any choice of the store among the rows
    that match a lookup. *)
Section Lookup.

Variable choose : list hrow -> nat.

(** ** Reasoning about the connection monad *)

Lemma bind_Ok {A B} (m : M A) (f : A -> M B) c b c' :
  (m ≫= f) c = Ok b c' <-> exists a c1, m c = Ok a c1 /\ f a c1 = Ok b c'.
Proof.
  unfold mbind, M_bind. destruct (m c) as [a c1|e c1]; split.
  - intros H. exists a, c1. auto.
  - intros (a' & c2 & Heq & H). congruence.
  - discriminate.
  - intros (a' & c2 & Heq & H). discriminate.
Qed.

Lemma subscript_Ok {A} (o : option A) c a c' :
  subscript o c = Ok a c' <-> o = Some a /\ c' = c.
Proof.
  unfold subscript. destruct o; split; intros H;
    try discriminate; try (destruct H; discriminate).
  - inversion H. auto.
  - destruct H as [[= ->] ->]. reflexivity.
Qed.

Lemma statement_Ok {A} fault (run : conn -> res A) c a c' :
  statement fault run c = Ok a c' <->
  fault (stmts c) = false /\ run c = Ok a c'.
Proof.
  unfold statement. destruct (fault (stmts c)); split; intros H;
    try discriminate; try (destruct H; discriminate); tauto.
Qed.

(** ** The three actions on the history table *)

Lemma py_ne_true a b : py_ne a b = true <-> a <> b.
Proof. unfold py_ne. case_bool_decide; simpl; split; congruence. Qed.

Lemma py_ne_false a b : py_ne a b = false <-> a = b.
Proof. unfold py_ne. case_bool_decide; simpl; split; congruence. Qed.

(** What [fetchone] returns is one of the rows, and there is one unless
    there is none. *)
Lemma fetchone_nil : fetchone choose [] = None.
Proof. reflexivity. Qed.

Lemma fetchone_is_Some r rows : is_Some (fetchone choose (r :: rows)).
Proof.
  unfold fetchone. apply lookup_lt_is_Some. apply Nat.mod_upper_bound.
  discriminate.
Qed.

Lemma fetchone_None rows : fetchone choose rows = None <-> rows = [].
Proof.
  split; [|by intros ->].
  destruct rows as [|r rows]; [reflexivity|]. intros H.
  destruct (fetchone_is_Some r rows) as [x Hx]. congruence.
Qed.

Lemma fetchone_elem rows r : fetchone choose rows = Some r -> r ∈ rows.
Proof. unfold fetchone. apply list_elem_of_lookup_2. Qed.

Lemma fetchone_singleton r : fetchone choose [r] = Some r.
Proof.
  unfold fetchone. change (length [r]) with 1%nat. by rewrite Nat.mod_1_r.
Qed.

(** The row a lookup returns satisfies the lookup's condition. *)
Lemma fetchone_filter (P : hrow -> Prop) `{forall x, Decision (P x)} t r :
  fetchone choose (filter P t) = Some r -> P r /\ r ∈ t.
Proof. intros Hr%fetchone_elem. by apply list_elem_of_filter in Hr. Qed.

(** Whatever the store does, a row that is processed without an exception
    took one of the three steps, inside the transaction. *)
Lemma process_row_Ok fault pk attrs ts cnt src c cnt' c' :
  process_row fault choose pk attrs ts cnt src c = Ok cnt' c' ->
  exists k h,
    src !! pk = Some k /\ generate_hash src attrs = Some h /\
    row_step choose pk ts src k h (view c) cnt (view c') cnt' /\
    persisted c' = persisted c /\ (stmts c < stmts c')%nat.
Proof.
  unfold process_row. intros H.
  apply bind_Ok in H as (k & c1 & Hk & H). apply subscript_Ok in Hk as [Hk ->].
  apply bind_Ok in H as (h & c1 & Hh & H). apply subscript_Ok in Hh as [Hh ->].
  apply bind_Ok in H as (tgt & c1 & Hsel & H).
  apply statement_Ok in Hsel as [_ Hsel]. injection Hsel as <- <-.
  exists k, h. split; [exact Hk|]. split; [exact Hh|].
  destruct (fetchone choose (filter (fun r => is_current_of pk k r) (view c)))
    as [r|] eqn:Hcur; simpl in H.
  - destruct (py_ne (row_hash r) (VText h)) eqn:Hne.
    + apply bind_Ok in H as ([] & c2 & Hupd & H).
      apply statement_Ok in Hupd as [_ Hupd]. injection Hupd as <-.
      apply bind_Ok in H as ([] & c3 & Hins & H).
      apply statement_Ok in Hins as [_ Hins]. injection Hins as <-.
      injection H as <- <-. simpl. split; [|split; [reflexivity|lia]].
      change (view (tick c)) with (view c).
      eapply step_changed; [exact Hcur|]. by apply py_ne_true.
    + injection H as <- <-. simpl. split; [|split; [reflexivity|lia]].
      change (view (tick c)) with (view c).
      eapply step_unchanged; [exact Hcur|]. by apply py_ne_false.
  - apply fetchone_None in Hcur.
    apply bind_Ok in H as ([] & c2 & Hins & H).
    apply statement_Ok in Hins as [_ Hins]. injection Hins as <-.
    injection H as <- <-. simpl. split; [|split; [reflexivity|lia]].
    change (view (tick c)) with (view c). by apply step_new.
Qed.

(** Row processing never touches what is committed. *)
Lemma process_row_persisted fault pk attrs ts cnt src c :
  persisted (res_conn (process_row fault choose pk attrs ts cnt src c))
  = persisted c.
Proof.
  unfold process_row, mbind, M_bind, subscript, select_row_hash, insert_row,
    update_expire, statement.
  destruct (src !! pk) as [k|]; [|reflexivity].
  destruct (generate_hash src attrs) as [h|]; [|reflexivity].
  destruct (fault (stmts c)); [reflexivity|].
  destruct (fetchone _ _) as [r|]; simpl.
  - destruct (py_ne _ _); simpl; [|reflexivity].
    destruct (fault (S (stmts c))); [reflexivity|]. simpl.
    destruct (fault (S (S (stmts c)))); reflexivity.
  - destruct (fault (S (stmts c))); reflexivity.
Qed.

Lemma process_rows_persisted fault pk attrs ts src : forall cnt c,
  persisted (res_conn (process_rows fault choose pk attrs ts cnt src c))
  = persisted c.
Proof.
  induction src as [|row rest IH]; intros cnt c; [reflexivity|].
  simpl. unfold mbind, M_bind.
  pose proof (process_row_persisted fault pk attrs ts cnt row c) as Hrow.
  destruct (process_row fault choose pk attrs ts cnt row c) as [cnt1 c1|e c1];
    simpl in Hrow.
  - rewrite IH. exact Hrow.
  - exact Hrow.
Qed.

Lemma process_rows_counts fault pk attrs ts src : forall cnt c cnt' c',
  process_rows fault choose pk attrs ts cnt src c = Ok cnt' c' ->
  (c_new cnt' + c_changed cnt' + c_unchanged cnt'
   = c_new cnt + c_changed cnt + c_unchanged cnt + length src)%nat.
Proof.
  induction src as [|row rest IH]; intros cnt c cnt' c' H; simpl in H.
  - injection H as <- <-. simpl. lia.
  - apply bind_Ok in H as (cnt1 & c1 & Hrow & H).
    apply IH in H. rewrite H. simpl.
    apply process_row_Ok in Hrow as (k & h & _ & _ & Hstep & _).
    inversion Hstep; subst; simpl; lia.
Qed.

(** A run that returns has processed every row and committed. *)
Lemma run_Returned fault pk attrs src ts db s c :
  run_scd_pipeline fault choose pk attrs src ts db = Returned s c ->
  exists cnt c1,
    process_rows fault choose pk attrs ts (Counters 0 0 0) src (connect db)
      = Ok cnt c1 /\
    fault (stmts c1) = false /\
    s = Summary (c_new cnt) (c_changed cnt) (c_unchanged cnt) (length src) /\
    c = Conn (view c1) None (S (stmts c1)).
Proof.
  unfold run_scd_pipeline, commit, statement.
  destruct (process_rows _ _ _ _ _ _ _ _) as [cnt c1|[] c1]; try discriminate.
  destruct (fault (stmts c1)) eqn:Hf; [discriminate|].
  intros [= <- <-]. by exists cnt, c1.
Qed.

(** ** The comparisons of the lookup *)

Lemma sql_eq_true a b : sql_eq a b = true -> a = b.
Proof.
  unfold sql_eq. destruct a, b; try discriminate;
    intros H; by apply bool_decide_eq_true in H.
Qed.

Lemma is_current_of_true pk k r :
  is_current_of pk k r = true -> hkey pk r = k /\ is_current r = VInt 1.
Proof.
  unfold is_current_of. intros [H1 H2]%andb_true_iff.
  split; by apply sql_eq_true.
Qed.

Lemma sql_eq_decide a b :
  b <> VNull -> sql_eq a b = bool_decide (a = b).
Proof.
  intros Hb. unfold sql_eq. destruct a, b; try reflexivity; try congruence.
Qed.

Lemma is_current_of_iff pk k r :
  k <> VNull ->
  is_current_of pk k r <-> hkey pk r = k /\ is_current r = VInt 1.
Proof.
  intros Hk. unfold is_current_of.
  rewrite !sql_eq_decide by congruence.
  rewrite andb_True, !bool_decide_spec. reflexivity.
Qed.

Lemma is_current_of_nonnull pk k r : is_current_of pk k r -> k <> VNull.
Proof.
  unfold is_current_of, sql_eq. intros H ->. by destruct (hkey pk r).
Qed.

(** ** The loop body on a store that does not fail *)

Lemma process_row_no_faults_eq pk attrs ts cnt src c k h :
  src !! pk = Some k ->
  generate_hash src attrs = Some h ->
  process_row no_faults choose pk attrs ts cnt src c =
  match fetchone choose (filter (fun r => is_current_of pk k r) (view c)) with
  | None =>
      Ok (bump_new cnt)
         (Conn (persisted c) (Some (view c ++ [new_version src h ts]))
            (2 + stmts c))
  | Some r =>
      if decide (row_hash r = VText h) then
        Ok (bump_unchanged cnt) (Conn (persisted c) (pending c) (1 + stmts c))
      else
        Ok (bump_changed cnt)
           (Conn (persisted c)
              (Some (close_current pk k ts (view c)
                     ++ [new_version src h ts]))
              (3 + stmts c))
  end.
Proof.
  intros Hk Hh.
  unfold process_row, mbind, M_bind, subscript, select_row_hash, insert_row,
    update_expire, statement, no_faults.
  rewrite Hk, Hh.
  destruct (fetchone choose _) as [r|]; simpl; [|reflexivity].
  destruct (decide (row_hash r = VText h)) as [Heq|Hne].
  - apply py_ne_false in Heq. rewrite Heq. reflexivity.
  - apply py_ne_true in Hne. rewrite Hne. reflexivity.
Qed.

(** The lookup's condition in words: the row has the key value [k], which
    is not null, and it is current. *)
Lemma is_current_of_spec pk k r :
  is_current_of pk k r <->
  k <> VNull /\ hkey pk r = k /\ is_current r = VInt 1.
Proof.
  split.
  - intros H. split; [by apply (is_current_of_nonnull pk k r)|].
    by apply is_current_of_true, Is_true_true.
  - intros [Hk H]. by apply is_current_of_iff.
Qed.

(** ** The claims about one source row *)

(** C3, as amended. For a source row with business key [k] and digest
    [h], on a store that does not fail, the loop body does exactly one of
    three things, decided by the history rows that are current
    ([is_current = 1]) and have the key [k], a null key being the key of
    no row. When there is none, one row is appended (the source columns,
    [row_hash = h], [row_start_date] the run timestamp, [row_end_date] the
    sentinel, [is_current = 1]) and [new_count] grows by one. Otherwise
    the lookup returns one of them, the only one when there is one and the
    store's choice when there are several. When its digest differs from
    [h], the UPDATE closes every current row of [k] ([row_end_date] the
    run timestamp, [is_current = 0]), then the same insertion happens, and
    [changed_count] grows by one. When its digest is [h], no write is
    issued and [unchanged_count] grows by one. *)
Theorem process_row_three_way pk attrs ts cnt src c k h :
  src !! pk = Some k ->
  generate_hash src attrs = Some h ->
  let current_of_k := fun r : hrow =>
    k <> VNull /\ hkey pk r = k /\ is_current r = VInt 1 in
  let inserted :=
    HRow src (VText h) (VText ts) (VText "9999-12-31 23:59:59") (VInt 1) in
  match fetchone choose (filter current_of_k (view c)) with
  | None =>
      filter current_of_k (view c) = [] /\
      process_row no_faults choose pk attrs ts cnt src c =
      Ok (Counters (S (c_new cnt)) (c_changed cnt) (c_unchanged cnt))
         (Conn (persisted c) (Some (view c ++ [inserted])) (2 + stmts c))
  | Some r =>
      r ∈ filter current_of_k (view c) /\
      if decide (row_hash r = VText h) then
        process_row no_faults choose pk attrs ts cnt src c =
        Ok (Counters (c_new cnt) (c_changed cnt) (S (c_unchanged cnt)))
           (Conn (persisted c) (pending c) (1 + stmts c))
      else
        process_row no_faults choose pk attrs ts cnt src c =
        Ok (Counters (c_new cnt) (S (c_changed cnt)) (c_unchanged cnt))
           (Conn (persisted c)
              (Some (((fun r =>
                         if decide (current_of_k r)
                         then HRow (cols r) (row_hash r) (row_start_date r)
                                (VText ts) (VInt 0)
                         else r) <$> view c) ++ [inserted]))
              (3 + stmts c))
  end.
Proof.
  intros Hk Hh current_of_k inserted.
  rewrite (process_row_no_faults_eq pk attrs ts cnt src c k h Hk Hh).
  assert (filter current_of_k (view c)
          = filter (fun r => is_current_of pk k r) (view c)) as ->.
  { apply list_filter_iff. intros r. symmetry. apply is_current_of_spec. }
  assert (close_current pk k ts (view c)
          = (fun r => if decide (current_of_k r) then expire ts r else r)
              <$> view c) as Hclose.
  { unfold close_current. apply list_fmap_ext. intros _ r _.
    destruct (is_current_of pk k r) eqn:Hm.
    - rewrite decide_True; [reflexivity|].
      by apply is_current_of_spec, Is_true_true.
    - rewrite decide_False; [reflexivity|].
      intros Hr%is_current_of_spec. by rewrite Hm in Hr. }
  destruct (fetchone choose _) as [r|] eqn:Hf.
  - split; [by apply fetchone_elem|].
    destruct (decide (row_hash r = VText h)); [reflexivity|].
    by rewrite Hclose.
  - split; [by apply fetchone_None|reflexivity].
Qed.

(** C3 as stated fails in two ways. A source row without a key finds a
    current history row with its key (none) and its digest, and is
    inserted again as new: a null key matches no row. And with two
    current rows for the widget, one with the digest of the source row and
    one with another, the action is the lookup's choice: the row is
    changed (and both rows closed) when the lookup returns the first, and
    unchanged when it returns the second. *)
Lemma three_way_not_decided_by_existence :
  (anonymous !! "id" = Some VNull /\
   generate_hash anonymous sample_attrs
   = Some "2d560e9e02ac1f39e89652b880002c5d" /\
   Exists (fun r => hkey "id" r = VNull /\ is_current r = VInt 1 /\
                    row_hash r = VText "2d560e9e02ac1f39e89652b880002c5d")
     keyless /\
   process_row no_faults first_match "id" sample_attrs "2026-01-20 09:00:00"
     (Counters 0 0 0) anonymous (connect keyless)
   = Ok (Counters 1 0 0)
        (Conn keyless
           (Some (keyless
                  ++ [new_version anonymous "2d560e9e02ac1f39e89652b880002c5d"
                        "2026-01-20 09:00:00"]))
           2)) /\
  (widget !! "id" = Some (VInt 1) /\
   generate_hash widget sample_attrs = Some widget_hash /\
   Forall (fun r => hkey "id" r = VInt 1 /\ is_current r = VInt 1)
     two_prices /\
   Exists (fun r => row_hash r = VText widget_hash) two_prices /\
   Exists (fun r => row_hash r <> VText widget_hash) two_prices /\
   process_row no_faults first_match "id" sample_attrs "2026-01-20 09:00:00"
     (Counters 0 0 0) widget (connect two_prices)
   = Ok (Counters 0 1 0)
        (Conn two_prices
           (Some ((expire "2026-01-20 09:00:00" <$> two_prices)
                  ++ [new_version widget widget_hash "2026-01-20 09:00:00"]))
           3) /\
   process_row no_faults last_match "id" sample_attrs "2026-01-20 09:00:00"
     (Counters 0 0 0) widget (connect two_prices)
   = Ok (Counters 0 0 1) (Conn two_prices None 1)).
Proof.
  split.
  - split; [vm_compute; reflexivity|]. split; [vm_compute; reflexivity|].
    split; [|vm_compute; reflexivity].
    apply Exists_cons_hd. by vm_compute.
  - split; [vm_compute; reflexivity|]. split; [vm_compute; reflexivity|].
    split; [repeat constructor|].
    split; [apply Exists_cons_tl, Exists_cons_hd; reflexivity|].
    split; [apply Exists_cons_hd; vm_compute; discriminate|].
    split; vm_compute; reflexivity.
Qed.

(** ** The claims about a whole run *)

(** C10. The summary a successful run returns adds up: the three
    classification counts sum to [total_count], which is the number of
    source rows. *)
Theorem summary_counts_add_up fault pk attrs src ts db s c :
  run_scd_pipeline fault choose pk attrs src ts db = Returned s c ->
  (new_count s + changed_count s + unchanged_count s = total_count s)%nat /\
  total_count s = length src.
Proof.
  intros H. apply run_Returned in H as (cnt & c1 & Hrows & _ & -> & _).
  apply process_rows_counts in Hrows. simpl in *. lia.
Qed.

(** [sqlite3.Error] comes from the store: when row processing raises it,
    the last statement given to the connection is one the store failed. *)
Lemma process_row_SqliteError fault pk attrs ts cnt src c c' :
  process_row fault choose pk attrs ts cnt src c = Raise SqliteError c' ->
  (stmts c < stmts c')%nat /\ fault (pred (stmts c')) = true.
Proof.
  unfold process_row, mbind, M_bind, subscript, select_row_hash, insert_row,
    update_expire, statement.
  destruct (src !! pk) as [k|]; [|discriminate].
  destruct (generate_hash src attrs) as [h|]; [|discriminate].
  destruct (fault (stmts c)) eqn:F0; [intros [= <-]; simpl; auto with lia|].
  destruct (fetchone _ _) as [r|]; simpl.
  - destruct (py_ne _ _); simpl; [|discriminate].
    destruct (fault (S (stmts c))) eqn:F1;
      [intros [= <-]; simpl; auto with lia|]. simpl.
    destruct (fault (S (S (stmts c)))) eqn:F2;
      [intros [= <-]; simpl; auto with lia|discriminate].
  - destruct (fault (S (stmts c))) eqn:F1;
      [intros [= <-]; simpl; auto with lia|discriminate].
Qed.

Lemma process_rows_SqliteError fault pk attrs ts src : forall cnt c c',
  process_rows fault choose pk attrs ts cnt src c = Raise SqliteError c' ->
  (stmts c < stmts c')%nat /\ fault (pred (stmts c')) = true.
Proof.
  induction src as [|row rest IH]; intros cnt c c' H; simpl in H;
    [discriminate|].
  unfold mbind, M_bind in H.
  destruct (process_row fault choose pk attrs ts cnt row c)
    as [cnt1 c1|e c1] eqn:Hrow.
  - apply process_row_Ok in Hrow as (_ & _ & _ & _ & _ & _ & Hlt).
    apply IH in H as [Hlt' Hf]. split; [lia|exact Hf].
  - injection H as -> ->. by apply process_row_SqliteError in Hrow.
Qed.

(** C2. When a store operation fails during row processing (the loop
    raises [sqlite3.Error]), the run rolls the transaction back, closes the
    connection and re-raises: nothing is pending afterwards, and the
    history table in the database is the one found before the run,
    whatever the rows processed before the failure had written. *)
Theorem run_failure_rolls_back fault pk attrs src ts db c :
  process_rows fault choose pk attrs ts (Counters 0 0 0) src (connect db)
    = Raise SqliteError c ->
  run_scd_pipeline fault choose pk attrs src ts db
    = Failed SqliteError (Conn db None (stmts c)) /\
  database (run_scd_pipeline fault choose pk attrs src ts db) = db.
Proof.
  intros H.
  pose proof (process_rows_persisted fault pk attrs ts src (Counters 0 0 0)
                (connect db)) as Hp.
  unfold run_scd_pipeline. rewrite H in *. unfold close, rollback.
  simpl in *. rewrite Hp. split; reflexivity.
Qed.

(** ** History immutability *)

Lemma closed_or_same_audit_only ts r r' :
  closed_or_same ts r r' -> audit_only ts r r'.
Proof.
  intros [->|[Hcur ->]]; unfold audit_only; simpl; auto 10.
Qed.

Lemma closed_or_same_trans ts r1 r2 r3 :
  closed_or_same ts r1 r2 -> closed_or_same ts r2 r3 ->
  closed_or_same ts r1 r3.
Proof.
  intros [->|[Hcur ->]] H23; [exact H23|].
  destruct H23 as [->|[Hcur' _]]; [by right|].
  simpl in Hcur'. discriminate.
Qed.

Lemma close_current_frame pk k ts t :
  Forall2 (closed_or_same ts) t (close_current pk k ts t).
Proof.
  unfold close_current. induction t as [|r t IH]; simpl; constructor; auto.
  destruct (is_current_of pk k r) eqn:Hm; [right|by left].
  apply is_current_of_true in Hm as [_ Hm]. auto.
Qed.

Lemma Forall2_closed_or_same_refl ts t : Forall2 (closed_or_same ts) t t.
Proof. induction t; constructor; auto. by left. Qed.

Lemma Forall2_closed_or_same_trans ts t1 : forall t2 t3,
  Forall2 (closed_or_same ts) t1 t2 -> Forall2 (closed_or_same ts) t2 t3 ->
  Forall2 (closed_or_same ts) t1 t3.
Proof.
  induction t1 as [|r t1 IH]; intros t2 t3 H12 H23.
  - inversion H12; subst. inversion H23; subst. constructor.
  - inversion H12; subst. inversion H23; subst. constructor.
    + eapply closed_or_same_trans; eauto.
    + eapply IH; eauto.
Qed.

(** One step keeps the old rows in place, up to closing, and appends. *)
Lemma row_step_frame pk ts src k h t cnt t' cnt' :
  row_step choose pk ts src k h t cnt t' cnt' ->
  exists kept ins, t' = kept ++ ins /\ Forall2 (closed_or_same ts) t kept.
Proof.
  intros Hstep. inversion Hstep; subst.
  - eexists t, _. split; [reflexivity|]. apply Forall2_closed_or_same_refl.
  - eexists _, _. split; [reflexivity|]. apply close_current_frame.
  - exists t', []. rewrite app_nil_r. split; [reflexivity|].
    apply Forall2_closed_or_same_refl.
Qed.

Lemma process_rows_frame fault pk attrs ts src : forall cnt c cnt' c',
  process_rows fault choose pk attrs ts cnt src c = Ok cnt' c' ->
  exists kept ins,
    view c' = kept ++ ins /\ Forall2 (closed_or_same ts) (view c) kept.
Proof.
  induction src as [|row rest IH]; intros cnt c cnt' c' H; simpl in H.
  - injection H as <- <-. exists (view c), []. rewrite app_nil_r.
    split; [reflexivity|]. apply Forall2_closed_or_same_refl.
  - apply bind_Ok in H as (cnt1 & c1 & Hrow & H).
    apply process_row_Ok in Hrow as (k & h & _ & _ & Hstep & _).
    apply row_step_frame in Hstep as (kept1 & ins1 & Hv1 & Hf1).
    apply IH in H as (kept & ins & Hv & Hf).
    rewrite Hv1 in Hf.
    apply Forall2_app_inv_l in Hf as (k1 & k2 & Hk1 & Hk2 & ->).
    exists k1, (k2 ++ ins). rewrite Hv, <- app_assoc. split; [reflexivity|].
    eapply Forall2_closed_or_same_trans; eauto.
Qed.

(** What is in the database after a run: the table as it was, or, when
    the loop went through and the commit succeeded, what the transaction
    saw at the end. *)
Lemma run_database fault pk attrs src ts db :
  database (run_scd_pipeline fault choose pk attrs src ts db) = db \/
  exists s c cnt c1,
    run_scd_pipeline fault choose pk attrs src ts db = Returned s c /\
    process_rows fault choose pk attrs ts (Counters 0 0 0) src (connect db)
      = Ok cnt c1 /\
    persisted c = view c1.
Proof.
  pose proof (process_rows_persisted fault pk attrs ts src (Counters 0 0 0)
                (connect db)) as Hp.
  unfold run_scd_pipeline, commit, statement.
  destruct (process_rows _ _ _ _ _ _ _ _) as [cnt c1|e c1] eqn:Hrows;
    simpl in Hp.
  - destruct (fault (stmts c1)).
    + left. simpl. exact Hp.
    + right. eexists _, _, cnt, c1. split; [reflexivity|]. auto.
  - left. destruct e; simpl; exact Hp.
Qed.

(** C9. Whatever a run does (return, or fail at any point), every row
    that was in the history table before it is still there afterwards, at
    the same position; it is either untouched, or it was current
    ([is_current = 1]) and only its [row_end_date] and [is_current] have
    changed; what else the table holds was appended by the run. *)
Theorem run_history_immutable fault pk attrs src ts db :
  exists kept inserted,
    database (run_scd_pipeline fault choose pk attrs src ts db)
    = kept ++ inserted /\
    Forall2 (audit_only ts) db kept.
Proof.
  destruct (run_database fault pk attrs src ts db)
    as [->|(s & c & cnt & c1 & -> & Hrows & Hp)].
  - exists db, []. rewrite app_nil_r. split; [reflexivity|].
    eapply Forall2_impl; [apply (Forall2_closed_or_same_refl ts)|].
    apply closed_or_same_audit_only.
  - apply process_rows_frame in Hrows as (kept & ins & Hv & Hf).
    exists kept, ins. simpl. rewrite Hp. split; [exact Hv|].
    eapply Forall2_impl; [exact Hf|]. apply closed_or_same_audit_only.
Qed.

(** ** The current-uniqueness invariant *)

Lemma lookup_current_count pk k t :
  k <> VNull ->
  length (filter (fun r => is_current_of pk k r) t) = current_count pk k t.
Proof.
  intros Hk. unfold current_count. f_equal.
  apply list_filter_iff. intros r. by apply is_current_of_iff.
Qed.

Lemma current_count_app pk k t1 t2 :
  current_count pk k (t1 ++ t2)
  = (current_count pk k t1 + current_count pk k t2)%nat.
Proof. unfold current_count. by rewrite filter_app, length_app. Qed.

Lemma hkey_new_version pk src h ts k :
  src !! pk = Some k -> hkey pk (new_version src h ts) = k.
Proof. intros H. unfold hkey. simpl. by rewrite H. Qed.

Lemma current_count_new_version pk src h ts k k' :
  src !! pk = Some k ->
  current_count pk k' [new_version src h ts]
  = if decide (k = k') then 1%nat else 0%nat.
Proof.
  intros H. unfold current_count. rewrite filter_cons, filter_nil.
  rewrite (hkey_new_version _ _ _ _ _ H). simpl.
  destruct (decide (k = k')) as [->|Hne].
  - rewrite decide_True by auto. reflexivity.
  - rewrite decide_False by tauto. reflexivity.
Qed.

Lemma current_count_close_current pk k ts k' t :
  current_count pk k' (close_current pk k ts t)
  = if decide (k' = k) then
      if decide (k = VNull) then current_count pk k' t else 0%nat
    else current_count pk k' t.
Proof.
  unfold current_count, close_current.
  induction t as [|r t IH].
  - repeat case_decide; reflexivity.
  - rewrite fmap_cons, !filter_cons.
    destruct (is_current_of pk k r) eqn:Hm.
    + pose proof Hm as [Hkey Hcur]%is_current_of_true.
      assert (k <> VNull) as Hk.
      { intros ->. unfold is_current_of, sql_eq in Hm.
        by destruct (hkey pk r). }
      change (hkey pk (expire ts r)) with (hkey pk r).
      rewrite (decide_False (P := _ /\ is_current (expire ts r) = VInt 1))
        by (intros [_ ?]; discriminate).
      rewrite IH.
      destruct (decide (k' = k)) as [->|Hne].
      * rewrite !(decide_False (P := k = VNull)) by done. reflexivity.
      * rewrite decide_False by (intros [? _]; congruence). reflexivity.
    + destruct (decide (hkey pk r = k' /\ is_current r = VInt 1))
        as [[Hkey Hcur]|Hn]; simpl; rewrite IH.
      * destruct (decide (k' = k)) as [->|Hne]; [|reflexivity].
        destruct (decide (k = VNull)) as [->|Hk]; [reflexivity|].
        assert (is_current_of pk k r) as Hr
          by (apply is_current_of_iff; auto).
        rewrite Hm in Hr. destruct Hr.
      * repeat case_decide; reflexivity.
Qed.

Lemma hkey_close_current pk k ts t :
  hkey pk <$> close_current pk k ts t = hkey pk <$> t.
Proof.
  unfold close_current. rewrite <- list_fmap_compose.
  apply list_fmap_ext. intros _ r _. simpl.
  by destruct (is_current_of pk k r).
Qed.

(** The invariant in terms of key values. *)
Lemma current_unique_keys pk t :
  current_unique pk t <->
  forall k, k ∈ hkey pk <$> t -> current_count pk k t = 1%nat.
Proof.
  unfold current_unique. rewrite Forall_forall. split.
  - intros H k (r & -> & Hr)%list_elem_of_fmap. by apply H.
  - intros H r Hr. apply H. apply list_elem_of_fmap. eauto.
Qed.

Lemma current_count_absent pk k t :
  k ∉ hkey pk <$> t -> current_count pk k t = 0%nat.
Proof.
  intros Hk. unfold current_count.
  induction t as [|r t IH]; [reflexivity|].
  rewrite filter_cons. rewrite fmap_cons, not_elem_of_cons in Hk.
  destruct Hk as [Hne Hk]. rewrite decide_False by (intros [? _]; congruence).
  by apply IH.
Qed.

(** One step on a non-null key keeps the invariant. *)
Lemma row_step_current_unique pk ts src k h t cnt t' cnt' :
  src !! pk = Some k -> k <> VNull ->
  row_step choose pk ts src k h t cnt t' cnt' ->
  current_unique pk t -> current_unique pk t'.
Proof.
  intros Hsrc Hk Hstep. rewrite !current_unique_keys. intros Hinv.
  inversion Hstep as [t0 cnt0 Hnone|t0 cnt0 r rs Hsome Hne|]; subst;
    [| |exact Hinv].
  - (* NEW *)
    assert (current_count pk k t = 0%nat) as Hzero.
    { rewrite <- lookup_current_count by done. by rewrite Hnone. }
    intros k' Hk'. rewrite current_count_app.
    rewrite (current_count_new_version _ _ _ _ _ _ Hsrc).
    rewrite fmap_app, elem_of_app in Hk'.
    destruct (decide (k = k')) as [<-|Hkk]; [lia|].
    destruct Hk' as [Hk'|Hk'].
    + rewrite (Hinv _ Hk'). lia.
    + simpl in Hk'. rewrite (hkey_new_version _ _ _ _ _ Hsrc) in Hk'.
      apply list_elem_of_singleton in Hk'. congruence.
  - (* CHANGED *)
    intros k' Hk'. rewrite current_count_app.
    rewrite (current_count_new_version _ _ _ _ _ _ Hsrc).
    rewrite current_count_close_current.
    rewrite fmap_app, hkey_close_current, elem_of_app in Hk'.
    destruct (decide (k = k')) as [<-|Hkk].
    + rewrite decide_True by done. rewrite decide_False by done. lia.
    + rewrite decide_False by congruence.
      destruct Hk' as [Hk'|Hk'].
      * rewrite (Hinv _ Hk'). lia.
      * simpl in Hk'. rewrite (hkey_new_version _ _ _ _ _ Hsrc) in Hk'.
        apply list_elem_of_singleton in Hk'. congruence.
Qed.

Lemma process_rows_current_unique fault pk attrs ts src : forall cnt c cnt' c',
  Forall (fun row => row !! pk <> Some VNull) src ->
  process_rows fault choose pk attrs ts cnt src c = Ok cnt' c' ->
  current_unique pk (view c) -> current_unique pk (view c').
Proof.
  induction src as [|row rest IH]; intros cnt c cnt' c' Hkeys H Hinv;
    simpl in H.
  - by injection H as <- <-.
  - apply Forall_cons in Hkeys as [Hrow0 Hkeys].
    apply bind_Ok in H as (cnt1 & c1 & Hrow & H).
    apply process_row_Ok in Hrow as (k & h & Hk & _ & Hstep & _).
    eapply IH; [exact Hkeys|exact H|].
    eapply row_step_current_unique; [exact Hk| |exact Hstep|exact Hinv].
    congruence.
Qed.

(** C1, as amended. When the history table satisfies the invariant before
    the run (every key value present has exactly one current row) and no
    source row has a null business key, a run that commits leaves a table
    that satisfies it again. *)
Theorem run_keeps_current_unique fault pk attrs src ts db s c :
  current_unique pk db ->
  Forall (fun row => row !! pk <> Some VNull) src ->
  run_scd_pipeline fault choose pk attrs src ts db = Returned s c ->
  current_unique pk (persisted c).
Proof.
  intros Hinv Hkeys H.
  apply run_Returned in H as (cnt & c1 & Hrows & _ & _ & ->). simpl.
  eapply process_rows_current_unique; [exact Hkeys|exact Hrows|exact Hinv].
Qed.

(** C1 as stated fails. On a table that already holds two current rows
    for a key, a run whose source row has the stored digest writes nothing
    and commits, and the key still has two current rows. And from an empty
    table, which satisfies the invariant, two source rows without a key are
    both inserted as current. *)
Lemma current_unique_not_established :
  (run_scd_pipeline no_faults first_match "id" sample_attrs [widget]
     "2026-01-20 09:00:00" corrupted
   = Returned (Summary 0 0 1 1) (Conn corrupted None 2) /\
   current_count "id" (VInt 1) corrupted = 2%nat /\
   ~ current_unique "id" corrupted) /\
  (run_scd_pipeline no_faults first_match "id" sample_attrs
      [anonymous; anonymous]
     "2026-01-20 09:00:00" []
   = Returned (Summary 2 0 0 2)
       (Conn [new_version anonymous "2d560e9e02ac1f39e89652b880002c5d"
                "2026-01-20 09:00:00";
              new_version anonymous "2d560e9e02ac1f39e89652b880002c5d"
                "2026-01-20 09:00:00"]
          None 5) /\
   current_unique "id" [] /\
   ~ current_unique "id"
       [new_version anonymous "2d560e9e02ac1f39e89652b880002c5d"
          "2026-01-20 09:00:00";
        new_version anonymous "2d560e9e02ac1f39e89652b880002c5d"
          "2026-01-20 09:00:00"]).
Proof.
  split.
  - split; [vm_compute; reflexivity|]. split; [vm_compute; reflexivity|].
    intros H. apply Forall_cons in H as [H _]. vm_compute in H. discriminate.
  - split; [vm_compute; reflexivity|]. split; [constructor|].
    intros H. apply Forall_cons in H as [H _]. vm_compute in H. discriminate.
Qed.

(** ** More than one current row for a key *)


Lemma filter_close_current pk k ts t :
  filter (fun r => is_current_of pk k r) (close_current pk k ts t) = [].
Proof.
  unfold close_current. induction t as [|r t IH]; [reflexivity|].
  rewrite fmap_cons, filter_cons, IH.
  destruct (is_current_of pk k r) eqn:Hm.
  - rewrite decide_False; [reflexivity|].
    unfold is_current_of. simpl. rewrite andb_false_r. auto.
  - rewrite decide_False; [reflexivity|]. rewrite Hm. auto.
Qed.

Lemma is_current_of_new_version pk src h ts k :
  src !! pk = Some k -> k <> VNull ->
  is_current_of pk k (new_version src h ts) = true.
Proof.
  intros Hsrc Hk. unfold is_current_of.
  rewrite (hkey_new_version _ _ _ _ _ Hsrc).
  rewrite sql_eq_decide by done. rewrite bool_decide_eq_true_2 by done.
  reflexivity.
Qed.



(** ** Null and repeated business keys *)

Lemma generate_hash_is_Some row attrs :
  Forall (fun a => is_Some (row !! a)) attrs ->
  is_Some (generate_hash row attrs).
Proof.
  intros H. unfold generate_hash, combined_string.
  rewrite !fmap_is_Some. apply mapM_is_Some.
  eapply Forall_impl; [exact H|]. intros a Ha. simpl.
  by rewrite fmap_is_Some.
Qed.

(** On a store that does not fail, a row with its columns is processed. *)
Lemma process_row_no_faults pk attrs ts cnt row c :
  has_columns pk attrs row ->
  exists cnt' c',
    process_row no_faults choose pk attrs ts cnt row c = Ok cnt' c'.
Proof.
  intros [[k Hk] [h Hh]%generate_hash_is_Some].
  rewrite (process_row_no_faults_eq pk attrs ts cnt row c k h Hk Hh).
  destruct (fetchone _ _); [|eauto]. case_decide; eauto.
Qed.

Lemma process_rows_no_faults pk attrs ts src : forall cnt c,
  Forall (has_columns pk attrs) src ->
  exists cnt' c',
    process_rows no_faults choose pk attrs ts cnt src c = Ok cnt' c'.
Proof.
  induction src as [|row rest IH]; intros cnt c Hcols; simpl.
  - by eexists _, _.
  - apply Forall_cons in Hcols as [Hrow Hrest].
    destruct (process_row_no_faults pk attrs ts cnt row c Hrow)
      as (cnt1 & c1 & H1).
    destruct (IH cnt1 c1 Hrest) as (cnt' & c' & H').
    exists cnt', c'. apply bind_Ok. eauto.
Qed.

Lemma run_no_faults pk attrs src ts db cnt c1 :
  process_rows no_faults choose pk attrs ts (Counters 0 0 0) src (connect db)
    = Ok cnt c1 ->
  run_scd_pipeline no_faults choose pk attrs src ts db
  = Returned (Summary (c_new cnt) (c_changed cnt) (c_unchanged cnt)
               (length src))
      (Conn (view c1) None (S (stmts c1))).
Proof. intros H. unfold run_scd_pipeline. rewrite H. reflexivity. Qed.

(** A row without a key is never matched by a lookup or an UPDATE. *)
Lemma is_current_of_null_key pk k r :
  hkey pk r = VNull -> is_current_of pk k r = false.
Proof. intros H. unfold is_current_of. rewrite H. reflexivity. Qed.

Lemma row_step_null_key_stays pk ts src k h t cnt t' cnt' r :
  row_step choose pk ts src k h t cnt t' cnt' ->
  r ∈ t -> hkey pk r = VNull -> r ∈ t'.
Proof.
  intros Hstep Hr Hnull. inversion Hstep; subst; [set_solver| |done].
  apply elem_of_app. left. unfold close_current.
  apply list_elem_of_fmap. exists r. split; [|exact Hr].
  by rewrite is_current_of_null_key.
Qed.

Lemma row_step_null_key_inserts pk ts src h t cnt t' cnt' :
  row_step choose pk ts src VNull h t cnt t' cnt' ->
  t' = t ++ [new_version src h ts] /\ cnt' = bump_new cnt.
Proof.
  intros Hstep.
  inversion Hstep as [t0 cnt0 Hnone|t0 cnt0 r Hsome _|t0 cnt0 r Hsome _];
    subst; [done| |].
  all: apply fetchone_filter in Hsome as [Hsome _].
  all: by apply is_current_of_nonnull in Hsome.
Qed.

Lemma process_rows_null_keys fault pk attrs ts src : forall cnt c cnt' c',
  process_rows fault choose pk attrs ts cnt src c = Ok cnt' c' ->
  (forall r, r ∈ view c -> hkey pk r = VNull -> r ∈ view c') /\
  (forall row, row ∈ src -> row !! pk = Some VNull ->
     exists h, generate_hash row attrs = Some h /\
               new_version row h ts ∈ view c').
Proof.
  induction src as [|row rest IH]; intros cnt c cnt' c' H; simpl in H.
  - injection H as <- <-. split; [auto|]. intros row Hrow. inversion Hrow.
  - apply bind_Ok in H as (cnt1 & c1 & Hrow & H).
    apply process_row_Ok in Hrow as (k & h & Hk & Hh & Hstep & _).
    apply IH in H as [Hstay Hins]. split.
    + intros r Hr Hnull. apply Hstay; [|exact Hnull].
      eapply row_step_null_key_stays; eauto.
    + intros row' [->|Hin]%elem_of_cons Hnull; [|by apply Hins].
      assert (k = VNull) as -> by congruence.
      apply row_step_null_key_inserts in Hstep as [Hv _].
      exists h. split; [exact Hh|]. apply Hstay.
      * rewrite Hv. apply elem_of_app. right. left.
      * by apply hkey_new_version.
Qed.

(** C5, as amended. The run validates no business key. On a store that
    does not fail, and with the configured columns present in every source
    row, the run commits whatever the keys are, null or repeated, and every
    source row is counted; a source row whose key is null is inserted as a
    new current version (no lookup matches a null key) and is in the table
    after the run. *)
Theorem run_accepts_any_keys pk attrs src ts db :
  Forall (has_columns pk attrs) src ->
  exists s c,
    run_scd_pipeline no_faults choose pk attrs src ts db = Returned s c /\
    total_count s = length src /\
    forall row, row ∈ src -> row !! pk = Some VNull ->
      exists h, generate_hash row attrs = Some h /\
                new_version row h ts ∈ persisted c.
Proof.
  intros Hcols.
  destruct (process_rows_no_faults pk attrs ts src (Counters 0 0 0)
              (connect db) Hcols) as (cnt & c1 & Hrows).
  eexists _, _. split; [by apply run_no_faults|]. split; [reflexivity|].
  simpl. by apply process_rows_null_keys in Hrows as [_ Hins].
Qed.

(** C5 as stated fails: a source row without a key is inserted and the
    run commits; a key that occurs twice is classified twice (NEW, then
    CHANGED against the version just inserted) and the run commits. *)
Lemma null_and_repeated_keys_commit :
  run_scd_pipeline no_faults first_match "id" sample_attrs [anonymous]
    "2026-01-20 09:00:00" []
  = Returned (Summary 1 0 0 1)
      (Conn [new_version anonymous "2d560e9e02ac1f39e89652b880002c5d"
               "2026-01-20 09:00:00"]
         None 3) /\
  run_scd_pipeline no_faults first_match "id" sample_attrs
    [widget; widget_repriced]
    "2026-01-20 09:00:00" []
  = Returned (Summary 1 1 0 2)
      (Conn [expire "2026-01-20 09:00:00"
               (new_version widget widget_hash "2026-01-20 09:00:00");
             new_version widget_repriced "41206b82a86ef9f2995310bee2f388b4"
               "2026-01-20 09:00:00"]
         None 6).
Proof. split; vm_compute; reflexivity. Qed.

(** ** Running again on an unchanged source *)

Lemma filter_close_current_other pk k ts k0 t :
  k0 <> k ->
  filter (fun r => is_current_of pk k0 r) (close_current pk k ts t)
  = filter (fun r => is_current_of pk k0 r) t.
Proof.
  intros Hne. unfold close_current. induction t as [|r t IH]; [reflexivity|].
  rewrite fmap_cons, !filter_cons, IH.
  destruct (is_current_of pk k r) eqn:Hm; [|reflexivity].
  apply is_current_of_true in Hm as [Hkey _].
  assert (forall r', hkey pk r' = k -> ~ is_current_of pk k0 r') as Hno.
  { intros r' Hr' [Hk0 _]%Is_true_true%is_current_of_true. congruence. }
  rewrite !decide_False; [reflexivity|by apply Hno..].
Qed.

(** A step on one key leaves the lookups of the other keys as they were. *)
Lemma row_step_other_key pk ts src k h t cnt t' cnt' k0 :
  src !! pk = Some k -> k0 <> k ->
  row_step choose pk ts src k h t cnt t' cnt' ->
  filter (fun r => is_current_of pk k0 r) t'
  = filter (fun r => is_current_of pk k0 r) t.
Proof.
  intros Hsrc Hne Hstep.
  assert (filter (fun r => is_current_of pk k0 r) [new_version src h ts] = [])
    as Hnew.
  { rewrite filter_cons, filter_nil. rewrite decide_False; [reflexivity|].
    intros [Hk0 _]%Is_true_true%is_current_of_true.
    rewrite (hkey_new_version _ _ _ _ _ Hsrc) in Hk0. congruence. }
  inversion Hstep; subst; [| |reflexivity].
  - by rewrite filter_app, Hnew, app_nil_r.
  - rewrite filter_app, Hnew, app_nil_r.
    by apply filter_close_current_other.
Qed.

(** After its step, the lookup for a row's key returns its digest. *)
Lemma row_step_settles pk ts src k h t cnt t' cnt' :
  src !! pk = Some k -> k <> VNull ->
  row_step choose pk ts src k h t cnt t' cnt' ->
  exists r,
    fetchone choose (filter (fun r => is_current_of pk k r) t') = Some r /\
    row_hash r = VText h.
Proof.
  intros Hsrc Hk Hstep.
  assert (filter (fun r => is_current_of pk k r) [new_version src h ts]
          = [new_version src h ts]) as Hnew.
  { rewrite filter_cons, filter_nil. rewrite decide_True; [reflexivity|].
    by rewrite is_current_of_new_version. }
  inversion Hstep as [t0 cnt0 Hnone|t0 cnt0 r Hsome Hne|t0 cnt0 r Hsome He];
    subst.
  - exists (new_version src h ts).
    rewrite filter_app, Hnone, Hnew. split; [apply fetchone_singleton|done].
  - exists (new_version src h ts).
    rewrite filter_app, filter_close_current, Hnew.
    split; [apply fetchone_singleton|done].
  - exists r. by split.
Qed.

Lemma process_rows_settles fault pk attrs ts src : forall cnt c cnt' c',
  NoDup ((fun row : gmap string value => row !! pk) <$> src) ->
  Forall (fun row => row !! pk <> Some VNull) src ->
  process_rows fault choose pk attrs ts cnt src c = Ok cnt' c' ->
  Forall (settled choose pk attrs (view c')) src /\
  forall k0,
    Some k0 ∉ (fun row : gmap string value => row !! pk) <$> src ->
    filter (fun r => is_current_of pk k0 r) (view c')
    = filter (fun r => is_current_of pk k0 r) (view c).
Proof.
  induction src as [|row rest IH]; intros cnt c cnt' c' Hnd Hkeys H;
    simpl in H.
  - injection H as <- <-. split; [constructor|reflexivity].
  - rewrite fmap_cons in Hnd. apply NoDup_cons in Hnd as [Hfresh Hnd].
    apply Forall_cons in Hkeys as [Hnn Hkeys].
    apply bind_Ok in H as (cnt1 & c1 & Hrow & H).
    apply process_row_Ok in Hrow as (k & h & Hk & Hh & Hstep & _).
    destruct (IH _ _ _ _ Hnd Hkeys H) as [Hrest Hother].
    rewrite Hk in Hfresh. split.
    + constructor; [|exact Hrest].
      destruct (row_step_settles _ _ _ _ _ _ _ _ _ Hk ltac:(congruence) Hstep)
        as (r & Hhead & Hhash).
      exists k, h, r. rewrite (Hother k Hfresh). auto.
    + intros k0 Hk0. rewrite fmap_cons, not_elem_of_cons, Hk in Hk0.
      destruct Hk0 as [Hne Hk0]. rewrite (Hother k0 Hk0).
      eapply row_step_other_key; [exact Hk| |exact Hstep]. congruence.
Qed.

(** On a table where every source row is settled, a run writes nothing. *)
Lemma process_rows_settled pk attrs ts src : forall cnt c,
  Forall (settled choose pk attrs (view c)) src ->
  process_rows no_faults choose pk attrs ts cnt src c
  = Ok (Counters (c_new cnt) (c_changed cnt) (length src + c_unchanged cnt))
       (Conn (persisted c) (pending c) (length src + stmts c)).
Proof.
  induction src as [|row rest IH]; intros cnt c Hs.
  - simpl. by destruct cnt, c.
  - apply Forall_cons in Hs as [(k & h & r & Hk & Hh & Hhead & Hhash) Hs].
    pose proof (process_row_no_faults_eq pk attrs ts cnt row c k h Hk Hh)
      as H.
    rewrite Hhead, decide_True in H by exact Hhash.
    cbn [process_rows]. unfold mbind, M_bind at 1. rewrite H.
    rewrite IH by exact Hs. simpl. do 2 f_equal; lia.
Qed.

(** C8, as amended. When the business keys of the source rows are
    pairwise distinct and none is null, a second run on the same source,
    after a first run that committed, classifies every row as unchanged:
    [new_count = changed_count = 0], nothing is written, and the history
    table is the one the first run left. *)
Theorem second_run_changes_nothing fault pk attrs src ts1 ts2 db s1 c1 :
  NoDup ((fun row : gmap string value => row !! pk) <$> src) ->
  Forall (fun row => row !! pk <> Some VNull) src ->
  run_scd_pipeline fault choose pk attrs src ts1 db = Returned s1 c1 ->
  run_scd_pipeline no_faults choose pk attrs src ts2 (persisted c1)
  = Returned (Summary 0 0 (length src) (length src))
      (Conn (persisted c1) None (S (length src))).
Proof.
  intros Hnd Hkeys H1.
  apply run_Returned in H1 as (cnt & c & Hrows & _ & _ & ->).
  apply process_rows_settles in Hrows as [Hs _]; [|done..].
  erewrite run_no_faults; [|apply process_rows_settled; exact Hs].
  simpl. by rewrite !Nat.add_0_r.
Qed.

(** C8 as stated fails. A source row without a key is inserted again by
    the second run; and when a key occurs twice in the source with
    different digests, the second run finds the later version current,
    and classifies both rows as changed. *)
Lemma second_run_inserts_again :
  run_scd_pipeline no_faults first_match "id" sample_attrs [anonymous]
    "2026-01-20 09:00:00" []
  = Returned (Summary 1 0 0 1)
      (Conn [new_version anonymous "2d560e9e02ac1f39e89652b880002c5d"
               "2026-01-20 09:00:00"]
         None 3) /\
  run_scd_pipeline no_faults first_match "id" sample_attrs [anonymous]
    "2026-01-21 09:00:00"
    [new_version anonymous "2d560e9e02ac1f39e89652b880002c5d"
       "2026-01-20 09:00:00"]
  = Returned (Summary 1 0 0 1)
      (Conn [new_version anonymous "2d560e9e02ac1f39e89652b880002c5d"
               "2026-01-20 09:00:00";
             new_version anonymous "2d560e9e02ac1f39e89652b880002c5d"
               "2026-01-21 09:00:00"]
         None 3) /\
  run_scd_pipeline no_faults first_match "id" sample_attrs
    [widget; widget_repriced]
    "2026-01-20 09:00:00" []
  = Returned (Summary 1 1 0 2)
      (Conn [expire "2026-01-20 09:00:00"
               (new_version widget widget_hash "2026-01-20 09:00:00");
             new_version widget_repriced "41206b82a86ef9f2995310bee2f388b4"
               "2026-01-20 09:00:00"]
         None 6) /\
  run_scd_pipeline no_faults first_match "id" sample_attrs
    [widget; widget_repriced]
    "2026-01-21 09:00:00"
    [expire "2026-01-20 09:00:00"
       (new_version widget widget_hash "2026-01-20 09:00:00");
     new_version widget_repriced "41206b82a86ef9f2995310bee2f388b4"
       "2026-01-20 09:00:00"]
  = Returned (Summary 0 2 0 2)
      (Conn [expire "2026-01-20 09:00:00"
               (new_version widget widget_hash "2026-01-20 09:00:00");
             expire "2026-01-21 09:00:00"
               (new_version widget_repriced
                  "41206b82a86ef9f2995310bee2f388b4" "2026-01-20 09:00:00");
             expire "2026-01-21 09:00:00"
               (new_version widget widget_hash "2026-01-21 09:00:00");
             new_version widget_repriced "41206b82a86ef9f2995310bee2f388b4"
               "2026-01-21 09:00:00"]
         None 7).
Proof. repeat split; vm_compute; reflexivity. Qed.

(** ** The fingerprint *)

Lemma string_app_cons a s t : String a s +:+ t = String a (s +:+ t).
Proof. reflexivity. Qed.

Lemma string_app_assoc s1 s2 s3 : (s1 +:+ s2) +:+ s3 = s1 +:+ s2 +:+ s3.
Proof.
  induction s1 as [|a s1 IH]; [reflexivity|].
  by rewrite !string_app_cons, IH.
Qed.

Lemma string_length_app s1 s2 :
  String.length (s1 +:+ s2) = (String.length s1 + String.length s2)%nat.
Proof.
  induction s1 as [|a s1 IH]; [reflexivity|].
  rewrite string_app_cons. simpl. by rewrite IH.
Qed.

Lemma string_app_inv_length s1 : forall s2 x y,
  String.length s1 = String.length s2 ->
  s1 +:+ x = s2 +:+ y -> s1 = s2.
Proof.
  induction s1 as [|a s1 IH]; intros [|b s2] x y Hlen Heq;
    try discriminate; [reflexivity|].
  rewrite !string_app_cons in Heq. injection Heq as -> Heq.
  f_equal. eapply IH; [|exact Heq]. simpl in Hlen. lia.
Qed.

Lemma str_join_cons2 sep s x rest :
  str_join sep (s :: x :: rest) = s +:+ sep +:+ str_join sep (x :: rest).
Proof. reflexivity. Qed.

Lemma str_join_foldl s : forall rest,
  foldl (fun acc x => acc +:+ "-" +:+ x) s rest = str_join "-" (s :: rest).
Proof.
  intros rest. revert s. induction rest as [|x rest IH]; intros s.
  - reflexivity.
  - cbn [foldl]. rewrite IH, str_join_cons2. destruct rest as [|y rest].
    + reflexivity.
    + rewrite !str_join_cons2, !string_app_assoc. reflexivity.
Qed.

Lemma str_join_hyphenated l : str_join "-" l = hyphenated l.
Proof. destruct l as [|s rest]; [reflexivity|]. symmetry. apply str_join_foldl. Qed.

(** A digest is 16 bytes, printed as 32 hexadecimal digits. *)
Lemma hexdigest_length s : String.length (MD5.hexdigest s) = 32%nat.
Proof.
  unfold MD5.hexdigest.
  destruct (MD5.digest (MD5.bytes_of_string s)) as [[[a b] c] d].
  reflexivity.
Qed.

(** The digest reads the monitored columns and nothing else. *)
Lemma generate_hash_ext row row' attrs :
  Forall (fun a => row' !! a = row !! a) attrs ->
  generate_hash row' attrs = generate_hash row attrs.
Proof.
  intros H. unfold generate_hash, combined_string. do 2 f_equal.
  apply Forall_mapM_ext. eapply Forall_impl; [exact H|].
  intros a Ha. simpl. by rewrite Ha.
Qed.

(** C6. For a record that has every monitored column, [generate_hash]
    returns the MD5 digest, 32 hexadecimal digits long, of the [str()] of
    the monitored values taken in the configured order and joined by
    hyphens; and a record with the same values in those columns gets the
    same digest. *)
Theorem generate_hash_digest row attrs :
  Forall (fun a => is_Some (row !! a)) attrs ->
  exists vals,
    Forall2 (fun a v => row !! a = Some v) attrs vals /\
    generate_hash row attrs
    = Some (MD5.hexdigest (hyphenated (py_str <$> vals))) /\
    String.length (MD5.hexdigest (hyphenated (py_str <$> vals))) = 32%nat /\
    forall row', Forall (fun a => row' !! a = row !! a) attrs ->
      generate_hash row' attrs
      = Some (MD5.hexdigest (hyphenated (py_str <$> vals))).
Proof.
  intros Hcols.
  assert (exists vals, Forall2 (fun a v => row !! a = Some v) attrs vals)
    as [vals Hvals].
  { induction Hcols as [|a attrs [v Hv] _ [vals IH]]; [by exists []|].
    exists (v :: vals). by constructor. }
  assert (generate_hash row attrs
          = Some (MD5.hexdigest (hyphenated (py_str <$> vals)))) as Hgh.
  { unfold generate_hash, combined_string.
    rewrite (mapM_Some_2 _ attrs (py_str <$> vals)).
    - simpl. by rewrite str_join_hyphenated.
    - apply Forall2_fmap_r. eapply Forall2_impl; [exact Hvals|].
      intros a v Hv. simpl. by rewrite Hv. }
  exists vals. split; [exact Hvals|]. split; [exact Hgh|].
  split; [apply hexdigest_length|].
  intros row' Hsame. rewrite <- Hgh. by apply generate_hash_ext.
Qed.

(** The widget's digest is that of "Widget-999". *)
Example generate_hash_widget :
  generate_hash widget sample_attrs = Some (MD5.hexdigest "Widget-999") /\
  MD5.hexdigest "Widget-999" = "e8b3ee2f74087f99e43ec424b602dce9".
Proof. split; vm_compute; reflexivity. Qed.

(** ** Sensitivity of the fingerprint *)

Section SingleChange.

(** Two stringifications of the columns that differ at column [a] only. *)
Variables (f f' : string -> string) (a : string).
Hypothesis same_elsewhere : forall b, b <> a -> f' b = f b.

Lemma str_join_length_change attrs :
  (String.length (str_join "-" (f' <$> attrs))
   + length (filter (fun b => b = a) attrs) * String.length (f a)
   = String.length (str_join "-" (f <$> attrs))
     + length (filter (fun b => b = a) attrs) * String.length (f' a))%nat.
Proof.
  induction attrs as [|b rest IH]; [reflexivity|].
  assert ((String.length (f' b)
           + (if decide (b = a) then 1 else 0) * String.length (f a)
           = String.length (f b)
             + (if decide (b = a) then 1 else 0) * String.length (f' a))%nat)
    as Hhead.
  { destruct (decide (b = a)) as [->|Hne]; [lia|].
    rewrite same_elsewhere by done. lia. }
  rewrite filter_cons. destruct rest as [|x rest].
  - rewrite filter_nil. cbn [fmap list_fmap str_join].
    destruct (decide (b = a)); simpl in *; lia.
  - rewrite !fmap_cons, !str_join_cons2, !string_length_app.
    rewrite !fmap_cons in IH.
    destruct (decide (b = a)); simpl length in *; lia.
Qed.

Lemma str_join_single_change attrs :
  a ∈ attrs ->
  str_join "-" (f' <$> attrs) = str_join "-" (f <$> attrs) ->
  f' a = f a.
Proof.
  induction attrs as [|b rest IH]; intros Hin Heq; [inversion Hin|].
  destruct (decide (b = a)) as [->|Hne].
  - pose proof (str_join_length_change (a :: rest)) as Hlen.
    rewrite Heq, filter_cons, decide_True in Hlen by done.
    simpl length in Hlen.
    assert (String.length (f' a) = String.length (f a)) as Hl by nia.
    destruct rest as [|x rest]; [exact Heq|].
    rewrite !fmap_cons, !str_join_cons2 in Heq.
    eapply string_app_inv_length; [exact Hl|exact Heq].
  - apply elem_of_cons in Hin as [->|Hin]; [done|].
    destruct rest as [|x rest]; [inversion Hin|].
    rewrite !fmap_cons, !str_join_cons2, (same_elsewhere b Hne) in Heq.
    do 2 apply String.app_inj in Heq. apply IH; [exact Hin|].
    by rewrite !fmap_cons.
Qed.

End SingleChange.

Lemma combined_string_present row attrs :
  Forall (fun a => is_Some (row !! a)) attrs ->
  combined_string row attrs
  = Some (str_join "-"
            ((fun a => py_str (default VNull (row !! a))) <$> attrs)).
Proof.
  intros H. unfold combined_string.
  rewrite (mapM_Some_2 _ attrs
             ((fun a => py_str (default VNull (row !! a))) <$> attrs));
    [reflexivity|].
  apply Forall2_fmap_r, Forall_Forall2_diag.
  eapply Forall_impl; [exact H|]. intros a [v Hv]. simpl. by rewrite Hv.
Qed.

(** C7, as amended. The digest depends on the monitored columns only: a
    record that agrees on them has the same digest. Changing the value of
    one monitored column changes the string that is hashed exactly when it
    changes the value's [str()]; a value with the same [str()] (NULL and
    the text "None", the integer 1 and the text "1") gives the same digest.
    That a different hashed string gives a different digest is not
    claimed: it holds up to the collisions of MD5. *)
Theorem generate_hash_sensitivity row attrs a v v' :
  Forall (fun b => is_Some (row !! b)) attrs ->
  a ∈ attrs ->
  row !! a = Some v ->
  (forall row', Forall (fun b => row' !! b = row !! b) attrs ->
     generate_hash row' attrs = generate_hash row attrs) /\
  (combined_string (<[a:=v']> row) attrs = combined_string row attrs
   <-> py_str v' = py_str v) /\
  (py_str v' = py_str v ->
   generate_hash (<[a:=v']> row) attrs = generate_hash row attrs).
Proof.
  intros Hcols Hin Hv.
  assert (Forall (fun b => is_Some (<[a:=v']> row !! b)) attrs) as Hcols'.
  { eapply Forall_impl; [exact Hcols|]. intros b Hb. simpl in Hb.
    destruct (decide (a = b)) as [->|Hne].
    - rewrite lookup_insert_eq. eauto.
    - by rewrite lookup_insert_ne. }
  assert (combined_string (<[a:=v']> row) attrs = combined_string row attrs
          <-> py_str v' = py_str v) as Hiff.
  { rewrite (combined_string_present _ _ Hcols),
      (combined_string_present _ _ Hcols').
    split.
    - intros [= Heq].
      apply (str_join_single_change
               (fun b => py_str (default VNull (row !! b)))
               (fun b => py_str (default VNull (<[a:=v']> row !! b))) a)
        in Heq; [| |exact Hin].
      + by rewrite lookup_insert_eq, Hv in Heq.
      + intros b Hne. by rewrite lookup_insert_ne.
    - intros Hstr. do 2 f_equal. apply list_fmap_ext. intros _ b _.
      destruct (decide (a = b)) as [<-|Hne].
      + by rewrite lookup_insert_eq, Hv.
      + by rewrite lookup_insert_ne. }
  split; [intros row'; apply generate_hash_ext|]. split; [exact Hiff|].
  intros Hstr. unfold generate_hash. f_equal. by apply Hiff.
Qed.

(** C7 as stated fails: replacing a monitored value by another with the
    same [str()] (here the integer price 999 by the text "999", and a NULL
    name by the text "None") leaves the digest as it was. *)
Lemma digest_blind_to_same_str :
  VText "999" <> VInt 999 /\
  generate_hash (<["price" := VText "999"]> widget) sample_attrs
  = generate_hash widget sample_attrs /\
  VText "None" <> VNull /\
  generate_hash (<["name" := VText "None"]> widget) sample_attrs
  = generate_hash (<["name" := VNull]> widget) sample_attrs.
Proof.
  split; [discriminate|]. split; [vm_compute; reflexivity|].
  split; [discriminate|]. vm_compute; reflexivity.
Qed.

(** * Further properties of the pipeline *)

(** ** [generate_hash]: missing columns and the unescaped delimiter *)

(** X1. [generate_hash] raises [KeyError] exactly when a monitored column is
    missing from the row. *)
Theorem generate_hash_None_iff row attrs :
  generate_hash row attrs = None <-> Exists (fun a => row !! a = None) attrs.
Proof.
  unfold generate_hash, combined_string.
  rewrite !fmap_None, mapM_None.
  split; intros H; (eapply Exists_impl; [exact H|]); intros a;
    by rewrite fmap_None.
Qed.

(** X2. The hyphen between the values is not escaped: moving a
    hyphen-separated part of one text column to the next one gives the same
    digest. *)
Theorem generate_hash_hyphen_collision row1 row2 a b x y z :
  row1 !! a = Some (VText (x +:+ "-" +:+ y)) ->
  row1 !! b = Some (VText z) ->
  row2 !! a = Some (VText x) ->
  row2 !! b = Some (VText (y +:+ "-" +:+ z)) ->
  generate_hash row1 [a; b] = generate_hash row2 [a; b].
Proof.
  intros H1a H1b H2a H2b. unfold generate_hash, combined_string.
  cbn [mapM]. rewrite H1a, H1b, H2a, H2b. cbn.
  by rewrite string_app_assoc.
Qed.

(** ** Rows without their columns, and what the run has issued *)

Lemma generate_hash_Some_columns row attrs :
  is_Some (generate_hash row attrs) ->
  Forall (fun a => is_Some (row !! a)) attrs.
Proof.
  unfold generate_hash, combined_string. rewrite !fmap_is_Some.
  intros H%mapM_is_Some. eapply Forall_impl; [exact H|].
  intros a Ha. simpl in Ha. by rewrite fmap_is_Some in Ha.
Qed.

(** A row that lacks the key column or a monitored column raises
    [KeyError] before any statement is given to the connection. *)
Lemma process_row_missing_column fault pk attrs ts cnt row c :
  ~ has_columns pk attrs row ->
  process_row fault choose pk attrs ts cnt row c = Raise KeyError c.
Proof.
  intros Hno. unfold process_row, mbind, M_bind, subscript.
  destruct (row !! pk) as [k|] eqn:Hk; [|reflexivity].
  destruct (generate_hash row attrs) as [h|] eqn:Hh; [|reflexivity].
  destruct Hno. split; [eauto|].
  apply generate_hash_Some_columns. rewrite Hh. eauto.
Qed.

(** The statements a processed row has used, and that none of them failed. *)
Lemma process_row_Ok_stmts fault pk attrs ts cnt src c cnt' c' :
  process_row fault choose pk attrs ts cnt src c = Ok cnt' c' ->
  (stmts c' + c_new cnt + 2 * c_changed cnt
   = stmts c + 1 + c_new cnt' + 2 * c_changed cnt')%nat /\
  forall n, (stmts c <= n < stmts c')%nat -> fault n = false.
Proof.
  unfold process_row, mbind, M_bind, subscript, select_row_hash, insert_row,
    update_expire, statement.
  destruct (src !! pk) as [k|]; [|discriminate].
  destruct (generate_hash src attrs) as [h|]; [|discriminate].
  destruct (fault (stmts c)) eqn:F0; [discriminate|].
  destruct (fetchone _ _) as [r|]; simpl.
  - destruct (py_ne _ _); simpl.
    + destruct (fault (S (stmts c))) eqn:F1; [discriminate|]. simpl.
      destruct (fault (S (S (stmts c)))) eqn:F2; [discriminate|].
      intros [= <- <-]. simpl. split; [lia|]. intros n Hn.
      assert (n = stmts c \/ n = S (stmts c) \/ n = S (S (stmts c)))
        as [->|[->| ->]] by lia; assumption.
    + intros [= <- <-]. simpl. split; [lia|]. intros n Hn.
      by assert (n = stmts c) as -> by lia.
  - destruct (fault (S (stmts c))) eqn:F1; [discriminate|].
    intros [= <- <-]. simpl. split; [lia|]. intros n Hn.
    assert (n = stmts c \/ n = S (stmts c)) as [->| ->] by lia; assumption.
Qed.

Lemma process_rows_Ok_stmts fault pk attrs ts src : forall cnt c cnt' c',
  process_rows fault choose pk attrs ts cnt src c = Ok cnt' c' ->
  (stmts c' + c_new cnt + 2 * c_changed cnt
   = stmts c + length src + c_new cnt' + 2 * c_changed cnt')%nat /\
  forall n, (stmts c <= n < stmts c')%nat -> fault n = false.
Proof.
  induction src as [|row rest IH]; intros cnt c cnt' c' H; simpl in H.
  - injection H as <- <-. split; [simpl; lia|]. intros n Hn. lia.
  - apply bind_Ok in H as (cnt1 & c1 & Hrow & H).
    apply process_row_Ok_stmts in Hrow as [Hn1 Hf1].
    apply IH in H as [Hn Hf]. split; [simpl; lia|].
    intros n Hlt. destruct (decide (n < stmts c1)%nat).
    + apply Hf1. lia.
    + apply Hf. lia.
Qed.

Lemma process_rows_length fault pk attrs ts src : forall cnt c cnt' c',
  process_rows fault choose pk attrs ts cnt src c = Ok cnt' c' ->
  (length (view c') + c_new cnt + c_changed cnt
   = length (view c) + c_new cnt' + c_changed cnt')%nat.
Proof.
  induction src as [|row rest IH]; intros cnt c cnt' c' H; simpl in H.
  - injection H as <- <-. lia.
  - apply bind_Ok in H as (cnt1 & c1 & Hrow & H).
    apply process_row_Ok in Hrow as (k & h & _ & _ & Hstep & _).
    apply IH in H.
    assert (length (view c1) + c_new cnt + c_changed cnt
            = length (view c) + c_new cnt1 + c_changed cnt1)%nat; [|lia].
    inversion Hstep; subst; unfold close_current;
      rewrite ?length_app, ?length_fmap; simpl; lia.
Qed.

(** Two stores that agree on the next three statements treat a row alike. *)
Lemma process_row_ext f g pk attrs ts cnt src c :
  (forall n, (stmts c <= n < stmts c + 3)%nat -> f n = g n) ->
  process_row f choose pk attrs ts cnt src c
  = process_row g choose pk attrs ts cnt src c.
Proof.
  intros Hfg.
  unfold process_row, mbind, M_bind, subscript, select_row_hash, insert_row,
    update_expire, statement.
  destruct (src !! pk) as [k|]; [|reflexivity].
  destruct (generate_hash src attrs) as [h|]; [|reflexivity].
  rewrite (Hfg (stmts c)) by lia.
  destruct (g (stmts c)); [reflexivity|].
  destruct (fetchone _ _) as [r|]; simpl.
  - destruct (py_ne _ _); simpl; [|reflexivity].
    rewrite (Hfg (S (stmts c))) by lia.
    destruct (g (S (stmts c))); [reflexivity|]. simpl.
    rewrite (Hfg (S (S (stmts c)))) by lia. reflexivity.
  - rewrite (Hfg (S (stmts c))) by lia. reflexivity.
Qed.

Lemma process_rows_ext f g pk attrs ts src : forall cnt c,
  (forall n, (stmts c <= n < stmts c + 3 * length src)%nat -> f n = g n) ->
  process_rows f choose pk attrs ts cnt src c
  = process_rows g choose pk attrs ts cnt src c.
Proof.
  induction src as [|row rest IH]; intros cnt c Hfg; [reflexivity|].
  simpl. unfold mbind, M_bind.
  rewrite (process_row_ext f g) by (intros n Hn; apply Hfg; simpl; lia).
  destruct (process_row g choose pk attrs ts cnt row c)
    as [cnt1 c1|e c1] eqn:Hrow;
    [|reflexivity].
  apply IH. intros n Hn. apply Hfg.
  pose proof Hrow as [Hs _]%process_row_Ok_stmts.
  apply process_row_Ok in Hrow as (k & h & _ & _ & Hstep & _).
  inversion Hstep; subst; simpl in *; lia.
Qed.

Lemma process_rows_Ok_columns fault pk attrs ts src : forall cnt c cnt' c',
  process_rows fault choose pk attrs ts cnt src c = Ok cnt' c' ->
  Forall (has_columns pk attrs) src.
Proof.
  induction src as [|row rest IH]; intros cnt c cnt' c' H; [constructor|].
  simpl in H. apply bind_Ok in H as (cnt1 & c1 & Hrow & H).
  constructor; [|by eapply IH].
  apply process_row_Ok in Hrow as (k & h & Hk & Hh & _).
  split; [eauto|]. apply generate_hash_Some_columns. eauto.
Qed.

(** ** The run as a whole: columns, failures, statements *)

(** X3. On a store that does not fail, the run returns exactly when every
    source row has the key column and the monitored columns. *)
Theorem run_returns_iff_columns pk attrs src ts db :
  (exists s c,
     run_scd_pipeline no_faults choose pk attrs src ts db = Returned s c)
  <-> Forall (has_columns pk attrs) src.
Proof.
  split.
  - intros (s & c & H).
    apply run_Returned in H as (cnt & c1 & Hrows & _).
    by apply process_rows_Ok_columns in Hrows.
  - intros Hcols.
    destruct (process_rows_no_faults pk attrs ts src (Counters 0 0 0)
                (connect db) Hcols) as (cnt & c1 & Hrows).
    eexists _, _. by apply run_no_faults.
Qed.

Lemma has_columns_dom pk attrs (r1 r2 : gmap string value) :
  dom r1 = dom r2 -> has_columns pk attrs r1 -> has_columns pk attrs r2.
Proof.
  intros Hdom [Hpk Hattrs]. split.
  - apply elem_of_dom. rewrite <- Hdom. by apply elem_of_dom.
  - eapply Forall_impl; [exact Hattrs|]. intros a Ha. simpl in Ha.
    apply elem_of_dom. rewrite <- Hdom. by apply elem_of_dom.
Qed.

(** X4. The rows of one [SELECT *] have the same columns, so when the
    source table lacks a configured column the run ends in [KeyError] at
    its first row, whatever the store does: no statement of the loop has
    been given to the connection, nothing is pending, and the database
    holds the table it held before the run. *)
Theorem run_KeyError_at_first_row fault pk attrs src ts db :
  same_columns src ->
  ~ Forall (has_columns pk attrs) src ->
  run_scd_pipeline fault choose pk attrs src ts db
  = Failed KeyError (connect db).
Proof.
  intros Hsame Hno.
  destruct src as [|row rest]; [by destruct Hno|].
  assert (~ has_columns pk attrs row) as Hrow.
  { intros Hrow. apply Hno, Forall_forall. intros r Hr.
    apply (has_columns_dom pk attrs row r); [|exact Hrow].
    apply Hsame; [by left|exact Hr]. }
  unfold run_scd_pipeline. simpl. unfold mbind, M_bind.
  by rewrite (process_row_missing_column _ _ _ _ _ _ _ Hrow).
Qed.

(** X5. When the loop goes through and the commit fails, the run rolls back
    and raises: the database holds the table it held before the run. *)
Theorem run_commit_failure_rolls_back fault pk attrs src ts db cnt c1 :
  process_rows fault choose pk attrs ts (Counters 0 0 0) src (connect db)
    = Ok cnt c1 ->
  fault (stmts c1) = true ->
  run_scd_pipeline fault choose pk attrs src ts db
    = Failed SqliteError (Conn db None (S (stmts c1))).
Proof.
  intros Hrows Hf.
  pose proof (process_rows_persisted fault pk attrs ts src (Counters 0 0 0)
                (connect db)) as Hp.
  rewrite Hrows in Hp. simpl in Hp.
  unfold run_scd_pipeline, commit, statement. rewrite Hrows, Hf.
  unfold close, rollback, tick. simpl. by rewrite Hp.
Qed.

(** X6. A run that returns has given the connection one SELECT per source row,
    one INSERT per new row, an UPDATE and an INSERT per changed row, and the
    commit. *)
Theorem run_statement_count fault pk attrs src ts db s c :
  run_scd_pipeline fault choose pk attrs src ts db = Returned s c ->
  stmts c = (1 + total_count s + new_count s + 2 * changed_count s)%nat.
Proof.
  intros H. apply run_Returned in H as (cnt & c1 & Hrows & _ & -> & ->).
  apply process_rows_Ok_stmts in Hrows as [Hn _]. simpl in *. lia.
Qed.

(** X7. The history table grows by one row per new and per changed source row,
    and by nothing else. *)
Theorem run_history_growth fault pk attrs src ts db s c :
  run_scd_pipeline fault choose pk attrs src ts db = Returned s c ->
  length (persisted c) = (length db + new_count s + changed_count s)%nat.
Proof.
  intros H. apply run_Returned in H as (cnt & c1 & Hrows & _ & -> & ->).
  apply process_rows_length in Hrows.
  change (view (connect db)) with db in Hrows. simpl in *. lia.
Qed.

(** X8. A run returns only if the store failed none of the statements it was
    given, the commit included. *)
Theorem run_returned_no_statement_failed fault pk attrs src ts db s c :
  run_scd_pipeline fault choose pk attrs src ts db = Returned s c ->
  forall n, (n < stmts c)%nat -> fault n = false.
Proof.
  intros H n Hn.
  apply run_Returned in H as (cnt & c1 & Hrows & Hf & _ & ->).
  apply process_rows_Ok_stmts in Hrows as [_ Hok]. simpl in *.
  destruct (decide (n = stmts c1)) as [->|Hne]; [exact Hf|].
  apply Hok. lia.
Qed.

(** X9. The run looks at the store's behaviour on its first [3 * len + 1]
    statements only: two stores that agree on those give the same run. *)
Theorem run_depends_on_issued_statements f g pk attrs src ts db :
  (forall n, (n <= 3 * length src)%nat -> f n = g n) ->
  run_scd_pipeline f choose pk attrs src ts db
  = run_scd_pipeline g choose pk attrs src ts db.
Proof.
  intros Hfg. unfold run_scd_pipeline.
  rewrite (process_rows_ext f g) by (intros n Hn; apply Hfg; simpl in *; lia).
  destruct (process_rows g choose pk attrs ts (Counters 0 0 0) src (connect db))
    as [cnt c1|e c1] eqn:Hrows; [|reflexivity].
  unfold commit, statement. rewrite Hfg; [reflexivity|].
  pose proof (process_rows_counts _ _ _ _ _ _ _ _ _ Hrows) as Hc.
  apply process_rows_Ok_stmts in Hrows as [Hn _]. simpl in *. lia.
Qed.

(** ** Where the run writes *)

Lemma close_current_lookup pk k ts t i r :
  t !! i = Some r ->
  close_current pk k ts t !! i
  = Some (if is_current_of pk k r then expire ts r else r).
Proof.
  intros H. unfold close_current. by rewrite list_lookup_fmap, H.
Qed.

Lemma length_close_current pk k ts t :
  length (close_current pk k ts t) = length t.
Proof. unfold close_current. by rewrite length_fmap. Qed.

(** A step leaves an old row as it is, or closes it because it is a
    current row of the step's key, and then appends the new version. *)
Lemma row_step_lookup pk ts src k h t cnt t' cnt' i r :
  row_step choose pk ts src k h t cnt t' cnt' ->
  t !! i = Some r ->
  (length t <= length t')%nat /\
  (t' !! i = Some r \/
   (is_current_of pk k r = true /\ t' !! i = Some (expire ts r) /\
    t' !! length t = Some (new_version src h ts))).
Proof.
  intros Hstep Hi. pose proof (lookup_lt_Some _ _ _ Hi) as Hlt.
  inversion Hstep; subst.
  - rewrite length_app. split; [lia|]. left. by rewrite lookup_app_l.
  - rewrite length_app, length_close_current. split; [lia|].
    rewrite lookup_app_l by (by rewrite length_close_current).
    rewrite (close_current_lookup _ _ _ _ _ _ Hi).
    destruct (is_current_of pk k r) eqn:Hm; [right|by left].
    split; [reflexivity|]. split; [reflexivity|].
    rewrite lookup_app_r by (by rewrite length_close_current).
    by rewrite length_close_current, Nat.sub_diag.
  - auto.
Qed.

(** What the rows processed do to a row already in the transaction's
    table: nothing, or, if it is current and a processed row has its key,
    they close it and append a version with that key that starts when the
    closed one ends. *)
Lemma process_rows_lookup fault pk attrs ts src : forall cnt c cnt' c' i r,
  process_rows fault choose pk attrs ts cnt src c = Ok cnt' c' ->
  view c !! i = Some r ->
  (length (view c) <= length (view c'))%nat /\
  (view c' !! i = Some r \/
   (is_current r = VInt 1 /\ view c' !! i = Some (expire ts r) /\
    (exists row, row ∈ src /\ row !! pk = Some (hkey pk r)) /\
    exists j n, (length (view c) <= j)%nat /\ view c' !! j = Some n /\
                hkey pk n = hkey pk r /\ row_start_date n = VText ts)).
Proof.
  induction src as [|row rest IH]; intros cnt c cnt' c' i r H Hi; simpl in H.
  - injection H as <- <-. split; [lia|by left].
  - apply bind_Ok in H as (cnt1 & c1 & Hrow & H).
    apply process_row_Ok in Hrow as (k & h & Hk & _ & Hstep & _).
    destruct (row_step_lookup _ _ _ _ _ _ _ _ _ _ _ Hstep Hi)
      as [Hlen [Hsame|(Hm & Hclosed & Hnew)]].
    + destruct (IH _ _ _ _ _ _ H Hsame)
        as [Hlen' [?|(Hcur & Hc & (row' & Hin & Hkey) & j & n & Hj & Hn)]].
      * split; [lia|by left].
      * split; [lia|]. right. split; [exact Hcur|]. split; [exact Hc|].
        split; [exists row'; split; [by right|exact Hkey]|].
        exists j, n. split; [lia|exact Hn].
    + apply is_current_of_true in Hm as [Hkey Hcur].
      destruct (IH _ _ _ _ _ _ H Hclosed) as [Hlen' [Hc|(Hbad & _)]];
        [|discriminate].
      split; [lia|]. right. split; [exact Hcur|]. split; [exact Hc|].
      split; [exists row; split; [by left|congruence]|].
      exists (length (view c)).
      destruct (IH _ _ _ _ _ _ H Hnew) as [_ [Hn|(_ & Hn & _)]].
      * eexists. split; [lia|]. split; [exact Hn|].
        by rewrite (hkey_new_version _ _ _ _ _ Hk).
      * eexists. split; [lia|]. split; [exact Hn|].
        change (hkey pk (expire ts ?x)) with (hkey pk x).
        by rewrite (hkey_new_version _ _ _ _ _ Hk).
Qed.

Lemma row_step_appended pk ts src k h t cnt t' cnt' j :
  row_step choose pk ts src k h t cnt t' cnt' ->
  (length t <= j < length t')%nat ->
  t' !! j = Some (new_version src h ts).
Proof.
  intros Hstep Hj. inversion Hstep; subst.
  - rewrite length_app in Hj. simpl in Hj.
    assert (j = length t) as -> by lia.
    by rewrite lookup_app_r, Nat.sub_diag.
  - rewrite length_app, length_close_current in Hj. simpl in Hj.
    assert (j = length t) as -> by lia.
    rewrite lookup_app_r by (by rewrite length_close_current).
    by rewrite length_close_current, Nat.sub_diag.
  - lia.
Qed.

(** What stands beyond the old rows was copied from a source row. *)
Lemma process_rows_appended fault pk attrs ts src : forall cnt c cnt' c' j n,
  process_rows fault choose pk attrs ts cnt src c = Ok cnt' c' ->
  (length (view c) <= j)%nat -> view c' !! j = Some n ->
  exists row, row ∈ src /\ version_of attrs ts row n.
Proof.
  induction src as [|row rest IH]; intros cnt c cnt' c' j n H Hj Hn;
    simpl in H.
  - injection H as <- <-. apply lookup_lt_Some in Hn. lia.
  - apply bind_Ok in H as (cnt1 & c1 & Hrow & H).
    apply process_row_Ok in Hrow as (k & h & Hk & Hh & Hstep & _).
    destruct (decide (length (view c1) <= j)%nat) as [Hge|Hlt].
    + destruct (IH _ _ _ _ _ _ H Hge Hn) as (row' & Hin & Hv).
      exists row'. split; [by right|exact Hv].
    + assert (view c1 !! j = Some (new_version row h ts)) as Hnew
        by (eapply row_step_appended; [exact Hstep|lia]).
      exists row. split; [by left|]. exists h. split; [exact Hh|].
      destruct (process_rows_lookup _ _ _ _ _ _ _ _ _ _ _ H Hnew)
        as [_ [Hs|(_ & Hs & _)]]; rewrite Hs in Hn; injection Hn as <-; auto.
Qed.

(** X10. A history row that is not current, or whose business key no source
    row carries, is found after the run where and as it was: the run closes no
    version of a key that has left the source, and never touches a closed
    version. *)
Theorem run_leaves_closed_rows_and_absent_keys fault pk attrs src ts db i r :
  db !! i = Some r ->
  is_current r <> VInt 1 \/
    (forall row, row ∈ src -> row !! pk <> Some (hkey pk r)) ->
  database (run_scd_pipeline fault choose pk attrs src ts db) !! i = Some r.
Proof.
  intros Hi Hcase.
  destruct (run_database fault pk attrs src ts db)
    as [->|(s & c & cnt & c1 & -> & Hrows & Hp)]; [exact Hi|].
  simpl. rewrite Hp.
  destruct (process_rows_lookup _ _ _ _ _ _ _ _ _ _ _ Hrows Hi)
    as [_ [Hsame|(Hcur & _ & (row & Hin & Hkey) & _)]]; [exact Hsame|].
  destruct Hcase as [Hn|Hn]; [done|]. by destruct (Hn row Hin).
Qed.

(** X11. Every version a committed run has closed has a successor appended by
    the same run: a row with the same business key whose [row_start_date] is
    the closed row's [row_end_date]. *)
Theorem run_closed_row_has_successor fault pk attrs src ts db s c i r r' :
  run_scd_pipeline fault choose pk attrs src ts db = Returned s c ->
  db !! i = Some r ->
  persisted c !! i = Some r' ->
  r' <> r ->
  r' = expire ts r /\
  exists j n,
    (length db <= j)%nat /\ persisted c !! j = Some n /\
    hkey pk n = hkey pk r /\ row_start_date n = row_end_date r'.
Proof.
  intros H Hi Hi' Hne.
  apply run_Returned in H as (cnt & c1 & Hrows & _ & _ & ->). simpl in *.
  destruct (process_rows_lookup _ _ _ _ _ _ _ _ _ _ _ Hrows Hi)
    as [_ [Hsame|(_ & Hclosed & _ & j & n & Hj & Hn & Hkey & Hstart)]];
    [congruence|].
  rewrite Hclosed in Hi'. injection Hi' as <-. split; [reflexivity|].
  exists j, n. auto.
Qed.

(** X12. Every row a committed run has appended is a copy of a source row: it
    has the row's columns and digest and the run's timestamp as
    [row_start_date]; it is current with the sentinel as [row_end_date], or
    was closed again in the same run, at the same timestamp. *)
Theorem run_appended_rows fault pk attrs src ts db s c j n :
  run_scd_pipeline fault choose pk attrs src ts db = Returned s c ->
  (length db <= j)%nat ->
  persisted c !! j = Some n ->
  exists row h,
    row ∈ src /\ generate_hash row attrs = Some h /\
    cols n = row /\ row_hash n = VText h /\ row_start_date n = VText ts /\
    ((is_current n = VInt 1 /\ row_end_date n = VText "9999-12-31 23:59:59")
     \/ (is_current n = VInt 0 /\ row_end_date n = VText ts)).
Proof.
  intros H Hj Hn.
  apply run_Returned in H as (cnt & c1 & Hrows & _ & _ & ->). simpl in *.
  destruct (process_rows_appended _ _ _ _ _ _ _ _ _ _ _ Hrows Hj Hn)
    as (row & Hin & h & Hh & [-> | ->]); exists row, h; simpl; auto 10.
Qed.

(** ** The current flag and the validity end *)

Lemma row_step_flag_consistent pk ts src k h t cnt t' cnt' :
  ts <> expiry_time ->
  row_step choose pk ts src k h t cnt t' cnt' ->
  flag_consistent t -> flag_consistent t'.
Proof.
  intros Hts Hstep Hinv. unfold flag_consistent in *.
  assert (Forall (fun r => is_current r = VInt 1
                           <-> row_end_date r = VText expiry_time)
            [new_version src h ts]) as Hnew.
  { constructor; [|constructor]. simpl. tauto. }
  inversion Hstep; subst; [by apply Forall_app| |exact Hinv].
  apply Forall_app. split; [|exact Hnew].
  unfold close_current. apply Forall_fmap.
  eapply Forall_impl; [exact Hinv|]. intros x Hx. simpl.
  destruct (is_current_of pk k x); [|exact Hx]. simpl.
  split; [discriminate|]. intros [= ?]. done.
Qed.

Lemma process_rows_flag_consistent fault pk attrs ts src : forall cnt c cnt' c',
  ts <> expiry_time ->
  process_rows fault choose pk attrs ts cnt src c = Ok cnt' c' ->
  flag_consistent (view c) -> flag_consistent (view c').
Proof.
  induction src as [|row rest IH]; intros cnt c cnt' c' Hts H Hinv;
    simpl in H.
  - by injection H as <- <-.
  - apply bind_Ok in H as (cnt1 & c1 & Hrow & H).
    apply process_row_Ok in Hrow as (k & h & _ & _ & Hstep & _).
    eapply IH; [exact Hts|exact H|].
    eapply row_step_flag_consistent; eauto.
Qed.

(** X13. When in the history table a row is current exactly if its
    [row_end_date] is the sentinel, and the run's timestamp is not the
    sentinel itself, the same holds of the table after the run, whatever its
    outcome. *)
Theorem run_keeps_flag_consistent fault pk attrs src ts db :
  ts <> expiry_time ->
  flag_consistent db ->
  flag_consistent (database (run_scd_pipeline fault choose pk attrs src ts db)).
Proof.
  intros Hts Hinv.
  destruct (run_database fault pk attrs src ts db)
    as [->|(s & c & cnt & c1 & -> & Hrows & Hp)]; [exact Hinv|].
  simpl. rewrite Hp.
  eapply process_rows_flag_consistent; [exact Hts|exact Hrows|exact Hinv].
Qed.

(** ** Columns that are not monitored *)

(** X14. A source row that agrees on the monitored columns with the row
    that the version the lookup returns for its key was hashed from is
    counted unchanged and nothing is written, whatever has changed in its
    other columns: the history keeps the old values of those. *)
Theorem unmonitored_change_not_recorded pk attrs ts cnt row old c k h r :
  row !! pk = Some k ->
  fetchone choose (filter (fun r => is_current_of pk k r) (view c))
    = Some r ->
  generate_hash old attrs = Some h ->
  row_hash r = VText h ->
  Forall (fun a => row !! a = old !! a) attrs ->
  process_row no_faults choose pk attrs ts cnt row c
  = Ok (Counters (c_new cnt) (c_changed cnt) (S (c_unchanged cnt)))
       (Conn (persisted c) (pending c) (1 + stmts c)).
Proof.
  intros Hk Hfetch Hold Hhash Hsame.
  assert (generate_hash row attrs = Some h) as Hh
    by (rewrite <- Hold; by apply generate_hash_ext).
  rewrite (process_row_no_faults_eq pk attrs ts cnt row c k h Hk Hh).
  by rewrite Hfetch, decide_True.
Qed.

(** ** Repeated keys: the last occurrence wins *)

Lemma process_rows_other_keys fault pk attrs ts src : forall cnt c cnt' c' k0,
  process_rows fault choose pk attrs ts cnt src c = Ok cnt' c' ->
  (forall row, row ∈ src -> row !! pk <> Some k0) ->
  filter (fun r => is_current_of pk k0 r) (view c')
  = filter (fun r => is_current_of pk k0 r) (view c).
Proof.
  induction src as [|row rest IH]; intros cnt c cnt' c' k0 H Hk0; simpl in H.
  - by injection H as <- <-.
  - apply bind_Ok in H as (cnt1 & c1 & Hrow & H).
    apply process_row_Ok in Hrow as (k & h & Hk & _ & Hstep & _).
    rewrite (IH _ _ _ _ _ H) by (intros row' Hin; apply Hk0; by right).
    eapply row_step_other_key; [exact Hk| |exact Hstep].
    intros ->. by apply (Hk0 row); [left|].
Qed.

Lemma process_rows_last_wins fault pk attrs ts src : forall cnt c cnt' c' k row,
  process_rows fault choose pk attrs ts cnt src c = Ok cnt' c' ->
  k <> VNull ->
  last_source_row pk k src = Some row ->
  exists h r,
    generate_hash row attrs = Some h /\
    fetchone choose (filter (fun r => is_current_of pk k r) (view c'))
      = Some r /\
    row_hash r = VText h.
Proof.
  unfold last_source_row.
  induction src as [|row0 rest IH]; intros cnt c cnt' c' k row H Hk Hlast;
    [discriminate|].
  simpl in H. apply bind_Ok in H as (cnt1 & c1 & Hrow & H).
  rewrite filter_cons in Hlast.
  destruct (filter (fun row : gmap string value => row !! pk = Some k) rest)
    as [|x xs] eqn:Hrest.
  - destruct (decide (row0 !! pk = Some k)) as [Hkey|]; [|discriminate].
    injection Hlast as <-.
    apply process_row_Ok in Hrow as (k' & h & Hk' & Hh & Hstep & _).
    assert (k' = k) as -> by congruence.
    destruct (row_step_settles _ _ _ _ _ _ _ _ _ Hk' Hk Hstep)
      as (r & Hfetch & Hhash).
    exists h, r. split; [exact Hh|]. split; [|exact Hhash].
    rewrite (process_rows_other_keys _ _ _ _ _ _ _ _ _ _ H); [exact Hfetch|].
    intros row' Hin Hkey'.
    assert (row' ∈ filter (fun row : gmap string value => row !! pk = Some k)
                      rest) as Hbad by (by apply list_elem_of_filter).
    rewrite Hrest in Hbad. inversion Hbad.
  - eapply IH; [exact H|exact Hk|]. rewrite Hrest.
    destruct (decide (row0 !! pk = Some k)); [|exact Hlast].
    by rewrite last_cons_cons in Hlast.
Qed.

(** ** The whole call *)

Lemma tick_later k c : tick (later k c) = later k (tick c).
Proof. unfold tick, later. simpl. by rewrite Nat.add_succ_r. Qed.

Lemma write_later k t c : write t (later k c) = later k (write t c).
Proof. unfold write, later. simpl. by rewrite Nat.add_succ_r. Qed.

Lemma statement_later {A} k fault (run : conn -> res A) c :
  run (later k c) = res_later k (run c) ->
  statement fault run (later k c)
  = res_later k (statement (fun n => fault (k + n)%nat) run c).
Proof.
  intros Hrun. unfold statement.
  change (stmts (later k c)) with (k + stmts c)%nat.
  destruct (fault (k + stmts c)%nat); [|exact Hrun].
  simpl. by rewrite tick_later.
Qed.

Lemma bind_later {A B} k (m m' : M A) (f f' : A -> M B) c :
  m (later k c) = res_later k (m' c) ->
  (forall a c1, f a (later k c1) = res_later k (f' a c1)) ->
  (m ≫= f) (later k c) = res_later k ((m' ≫= f') c).
Proof.
  intros Hm Hf. unfold mbind, M_bind. rewrite Hm.
  destruct (m' c) as [a c1|e c1]; simpl; [apply Hf|reflexivity].
Qed.

Lemma insert_row_later k fault r c :
  insert_row fault r (later k c)
  = res_later k (insert_row (fun n => fault (k + n)%nat) r c).
Proof.
  unfold insert_row. apply statement_later. simpl.
  change (view (later k c)) with (view c). by rewrite write_later.
Qed.

Lemma process_row_later k fault pk attrs ts cnt row c :
  process_row fault choose pk attrs ts cnt row (later k c)
  = res_later k
      (process_row (fun n => fault (k + n)%nat)
         choose pk attrs ts cnt row c).
Proof.
  unfold process_row.
  apply bind_later; [by destruct (row !! pk)|]. intros key c1.
  apply bind_later; [by destruct (generate_hash row attrs)|]. intros h c2.
  apply bind_later.
  { unfold select_row_hash. apply statement_later. simpl.
    change (view (later k c2)) with (view c2). by rewrite tick_later. }
  intros [tgt|] c3.
  - destruct (py_ne tgt (VText h)); [|reflexivity].
    apply bind_later.
    { unfold update_expire. apply statement_later. simpl.
      change (view (later k c3)) with (view c3). by rewrite write_later. }
    intros [] c4. apply bind_later; [apply insert_row_later|].
    intros [] c5. reflexivity.
  - apply bind_later; [apply insert_row_later|]. intros [] c4. reflexivity.
Qed.

Lemma process_rows_later k fault pk attrs ts src : forall cnt c,
  process_rows fault choose pk attrs ts cnt src (later k c)
  = res_later k
      (process_rows (fun n => fault (k + n)%nat) choose pk attrs ts cnt src c).
Proof.
  induction src as [|row rest IH]; intros cnt c; [reflexivity|].
  simpl. unfold mbind, M_bind. rewrite process_row_later.
  destruct (process_row _ _ pk attrs ts cnt row c) as [cnt1 c1|e c1]; simpl;
    [apply IH|reflexivity].
Qed.

(** X16. With both keys in the configuration, monitored names that can
    be joined, a database that can be opened and an extraction that
    succeeds, the call is the run of the loop on the extracted rows, on
    the store as it behaves from its second statement on. *)
Theorem from_config_runs_the_loop fault conf src ts db pk attrs :
  primary_key conf = Some pk ->
  changing_attributes conf = Some (Names attrs) ->
  fault 0%nat = false ->
  run_scd_pipeline_from_config fault choose (Parsed conf) true src ts db
  = Connected
      (outcome_later 1
         (run_scd_pipeline (fun n => fault (S n)) choose pk attrs src ts db)).
Proof.
  intros Hpk Hattrs Hf.
  unfold run_scd_pipeline_from_config, run_scd_pipeline.
  rewrite Hpk, Hattrs. unfold statement at 1. simpl. rewrite Hf.
  change (tick (connect db)) with (later 1 (connect db)).
  rewrite process_rows_later. f_equal.
  destruct (process_rows _ _ pk attrs ts (Counters 0 0 0) src (connect db))
    as [cnt c|[] c]; simpl; try reflexivity.
  unfold commit, statement. simpl.
  destruct (fault (S (stmts c))); reflexivity.
Qed.

(** X18. All or nothing, for the call as a whole: the history table in
    the database is as it was before the call, unless the configuration
    was loaded and had both keys, the database could be opened, every
    source row had the configured columns, the store failed none of the
    statements it was given, and the call returned its summary. *)
Theorem from_config_all_or_nothing fault file can_connect src ts db :
  call_database db
    (run_scd_pipeline_from_config fault choose file can_connect src ts db)
  = db \/
  exists conf pk attrs s c,
    file = Parsed conf /\ can_connect = true /\
    primary_key conf = Some pk /\
    changing_attributes conf = Some (Names attrs) /\
    run_scd_pipeline_from_config fault choose file can_connect src ts db
      = Connected (Returned s c) /\
    Forall (has_columns pk attrs) src /\
    forall n, (n < stmts c)%nat -> fault n = false.
Proof.
  unfold run_scd_pipeline_from_config.
  destruct file as [| |conf]; [by left..|].
  destruct (primary_key conf) as [pk|] eqn:Hpk; [|by left].
  destruct (changing_attributes conf) as [[attrs|]|] eqn:Hattrs;
    [|by left..].
  destruct can_connect; [|by left]. simpl negb. cbv iota.
  unfold statement. change (stmts (connect db)) with 0%nat.
  destruct (fault 0%nat) eqn:F0; [by left|].
  pose proof (process_rows_persisted fault pk attrs ts src (Counters 0 0 0)
                (tick (connect db))) as Hp.
  destruct (process_rows fault choose pk attrs ts (Counters 0 0 0) src
              (tick (connect db))) as [cnt c|e c] eqn:Hrows; simpl in Hp.
  - unfold commit, statement.
    destruct (fault (stmts c)) eqn:Fc; [left; simpl; exact Hp|].
    right. exists conf, pk, attrs. eexists _, _.
    split; [reflexivity|]. split; [reflexivity|]. split; [exact Hpk|].
    split; [exact Hattrs|]. split; [reflexivity|].
    split; [by eapply process_rows_Ok_columns|].
    simpl. intros n Hn.
    apply process_rows_Ok_stmts in Hrows as [_ Hok]. simpl in Hok.
    destruct (decide (n = 0)%nat) as [->|]; [exact F0|].
    destruct (decide (n = stmts c)) as [->|]; [exact Fc|].
    apply Hok. lia.
  - left. destruct e; simpl; exact Hp.
Qed.

(** ** [verify_setup] *)

Lemma filter_all_found (names cols : list string) :
  NoDup names -> NoDup cols ->
  length (filter (fun x => x ∈ names) cols) = length names
  <-> forall a, a ∈ names -> a ∈ cols.
Proof.
  intros Hn Hc.
  assert (filter (fun x => x ∈ names) cols ⊆+ names) as Hsub.
  { apply NoDup_submseteq; [by apply NoDup_filter|].
    intros x Hx. by apply list_elem_of_filter in Hx as [Hx _]. }
  split.
  - intros Hlen a Ha.
    assert (filter (fun x => x ∈ names) cols ≡ₚ names) as Hperm
      by (apply submseteq_length_Permutation; [exact Hsub|lia]).
    rewrite <- Hperm in Ha. by apply list_elem_of_filter in Ha as [_ Ha].
  - intros Hall.
    assert (names ⊆+ filter (fun x => x ∈ names) cols) as Hsup.
    { apply NoDup_submseteq; [exact Hn|].
      intros x Hx. apply list_elem_of_filter. auto. }
    apply submseteq_length in Hsub, Hsup. lia.
Qed.

Lemma NoDup_setup_tables : NoDup setup_tables.
Proof. apply (bool_decide_unpack _). vm_compute. exact I. Qed.

Lemma NoDup_audit_names : NoDup audit_names.
Proof. apply (bool_decide_unpack _). vm_compute. exact I. Qed.

Lemma setup_tables_found (schema : gmap string (list string)) :
  length (filter (fun name => name ∈ setup_tables) (elements (dom schema)))
  = 2%nat
  <-> forall t, t ∈ setup_tables -> is_Some (schema !! t).
Proof.
  change 2%nat with (length setup_tables).
  rewrite filter_all_found;
    [|apply NoDup_setup_tables|apply NoDup_elements].
  split; intros H t Ht; specialize (H t Ht).
  - by apply elem_of_dom, elem_of_elements.
  - by apply elem_of_elements, elem_of_dom.
Qed.

Lemma verify_setup_checks_true_iff fault
    (schema : gmap string (list string)) :
  NoDup (default [] (schema !! "sales_records_cdc")) ->
  verify_setup_checks fault schema = true
  <-> (forall n, (n < 4)%nat -> fault n = false) /\
      (forall t, t ∈ setup_tables -> is_Some (schema !! t)) /\
      (forall a, a ∈ audit_names ->
         a ∈ default [] (schema !! "sales_records_cdc")).
Proof.
  intros Hnd. unfold verify_setup_checks.
  rewrite <- setup_tables_found.
  rewrite <- (filter_all_found audit_names) by
    (apply NoDup_audit_names || exact Hnd).
  change (length audit_names) with 4%nat.
  split.
  - destruct (fault 0%nat) eqn:F0; [discriminate|].
    case_bool_decide as Ht; [|discriminate]. simpl.
    destruct (fault 1%nat) eqn:F1; [discriminate|].
    destruct (fault 2%nat) eqn:F2; [discriminate|].
    case_bool_decide as Ha; [|discriminate]. simpl.
    destruct (fault 3%nat) eqn:F3; [discriminate|]. intros _.
    split; [|by split]. intros n Hn.
    assert (n = 0 \/ n = 1 \/ n = 2 \/ n = 3)%nat
      as [->|[->|[->| ->]]] by lia; assumption.
  - intros (Hf & Ht & Ha).
    rewrite !Hf by lia. rewrite !bool_decide_eq_true_2 by assumption.
    reflexivity.
Qed.

(** X19. [verify_setup] raises [sqlite3.Error] exactly when the database
    cannot be opened, the connection being made before the [try] block.
    It answers [True] exactly when the database can be opened, none of
    its four statements fails, the two tables exist and the history table
    has the four audit columns (the columns of a table having distinct
    names); and [False] in every case that is left. *)
Theorem verify_setup_true_iff can_connect fault
    (schema : gmap string (list string)) :
  NoDup (default [] (schema !! "sales_records_cdc")) ->
  (verify_setup can_connect fault schema = VerifyRaised
   <-> can_connect = false) /\
  (verify_setup can_connect fault schema = Verdict true
   <-> can_connect = true /\
       (forall n, (n < 4)%nat -> fault n = false) /\
       (forall t, t ∈ setup_tables -> is_Some (schema !! t)) /\
       (forall a, a ∈ audit_names ->
          a ∈ default [] (schema !! "sales_records_cdc"))) /\
  (verify_setup can_connect fault schema = Verdict false
   <-> can_connect = true /\
       ~ ((forall n, (n < 4)%nat -> fault n = false) /\
          (forall t, t ∈ setup_tables -> is_Some (schema !! t)) /\
          (forall a, a ∈ audit_names ->
             a ∈ default [] (schema !! "sales_records_cdc")))).
Proof.
  intros Hnd. rewrite <- (verify_setup_checks_true_iff fault schema Hnd).
  unfold verify_setup.
  destruct can_connect, (verify_setup_checks fault schema); simpl;
    repeat split; try discriminate; try tauto; try congruence;
    try (intros [? ?]; congruence).
Qed.

(** X20. The verdict of [verify_setup] does not depend on the table the
    pipeline reads its source rows from: it checks
    ["sales_records_current"], not [SOURCE_TABLE]. *)
Theorem verify_setup_ignores_source_table can_connect fault
    (schema : gmap string (list string)) :
  verify_setup can_connect fault (delete SOURCE_TABLE schema)
  = verify_setup can_connect fault schema.
Proof.
  unfold verify_setup, verify_setup_checks.
  assert (length (filter (fun name => name ∈ setup_tables)
                    (elements (dom (delete SOURCE_TABLE schema))))
          = length (filter (fun name => name ∈ setup_tables)
                      (elements (dom schema)))) as ->.
  { destruct (schema !! SOURCE_TABLE) as [cols|] eqn:Hs.
    - rewrite <- (insert_delete_id schema SOURCE_TABLE cols Hs) at 2.
      rewrite dom_insert_L, elements_union_singleton
        by (apply not_elem_of_dom, lookup_delete_eq).
      rewrite filter_cons, decide_False; [reflexivity|].
      apply (bool_decide_unpack _). vm_compute. exact I.
    - by rewrite delete_id. }
  rewrite lookup_delete_ne by done. reflexivity.
Qed.

(** ** At most one current version per key *)

Lemma row_step_at_most_one pk ts src k h t cnt t' cnt' :
  src !! pk = Some k -> k <> VNull ->
  row_step choose pk ts src k h t cnt t' cnt' ->
  current_at_most_one pk t -> current_at_most_one pk t'.
Proof.
  intros Hsrc Hk Hstep Hinv k'.
  inversion Hstep as [t0 cnt0 Hnone|t0 cnt0 r rs Hsome Hne|]; subst;
    [| |apply Hinv].
  - rewrite current_count_app, (current_count_new_version _ _ _ _ _ _ Hsrc).
    destruct (decide (k = k')) as [<-|]; [|specialize (Hinv k'); lia].
    rewrite <- lookup_current_count, Hnone by done. simpl. lia.
  - rewrite current_count_app, (current_count_new_version _ _ _ _ _ _ Hsrc),
      current_count_close_current.
    destruct (decide (k = k')) as [<-|].
    + rewrite decide_True by done. rewrite decide_False by done. lia.
    + rewrite decide_False by congruence. specialize (Hinv k'). lia.
Qed.

Lemma process_rows_at_most_one fault pk attrs ts src : forall cnt c cnt' c',
  Forall (fun row => row !! pk <> Some VNull) src ->
  process_rows fault choose pk attrs ts cnt src c = Ok cnt' c' ->
  current_at_most_one pk (view c) -> current_at_most_one pk (view c').
Proof.
  induction src as [|row rest IH]; intros cnt c cnt' c' Hkeys H Hinv;
    simpl in H.
  - by injection H as <- <-.
  - apply Forall_cons in Hkeys as [Hrow0 Hkeys].
    apply bind_Ok in H as (cnt1 & c1 & Hrow & H).
    apply process_row_Ok in Hrow as (k & h & Hk & _ & Hstep & _).
    eapply IH; [exact Hkeys|exact H|].
    eapply row_step_at_most_one; [exact Hk| |exact Hstep|exact Hinv].
    congruence.
Qed.

(** X21. When no key value has more than one current row in the history table
    and no source row has a null key, no key value has more than one current
    row after the run, whatever its outcome. *)
Theorem run_keeps_current_at_most_one fault pk attrs src ts db :
  current_at_most_one pk db ->
  Forall (fun row => row !! pk <> Some VNull) src ->
  current_at_most_one pk
    (database (run_scd_pipeline fault choose pk attrs src ts db)).
Proof.
  intros Hinv Hkeys.
  destruct (run_database fault pk attrs src ts db)
    as [->|(s & c & cnt & c1 & -> & Hrows & Hp)]; [exact Hinv|].
  simpl. rewrite Hp.
  eapply process_rows_at_most_one; [exact Hkeys|exact Hrows|exact Hinv].
Qed.

(** X22. When no key value has more than one current row in the history table
    and no source row has a null key, after a run that commits every business
    key of the source has exactly one current row, also a key that had none
    before (a key seen for the first time, or one whose versions were all
    closed). *)
Theorem run_source_keys_have_one_current fault pk attrs src ts db s c row :
  current_at_most_one pk db ->
  Forall (fun row => row !! pk <> Some VNull) src ->
  run_scd_pipeline fault choose pk attrs src ts db = Returned s c ->
  row ∈ src ->
  exists k, row !! pk = Some k /\ current_count pk k (persisted c) = 1%nat.
Proof.
  intros Hinv Hkeys H Hin.
  apply run_Returned in H as (cnt & c1 & Hrows & _ & _ & ->). simpl.
  pose proof (process_rows_Ok_columns _ _ _ _ _ _ _ _ _ Hrows) as Hcols.
  rewrite Forall_forall in Hcols, Hkeys.
  destruct (Hcols row Hin) as [[k Hk] _]. exists k. split; [exact Hk|].
  assert (k <> VNull) as Hnn by (intros ->; by apply (Hkeys row Hin)).
  pose proof (process_rows_at_most_one _ _ _ _ _ _ _ _ _
                ltac:(by apply Forall_forall) Hrows Hinv k) as Hle.
  assert (exists row', last_source_row pk k src = Some row') as [row' Hlast].
  { unfold last_source_row.
    destruct (filter (fun row0 : gmap string value => row0 !! pk = Some k) src)
      as [|x xs] eqn:Hf.
    - assert (row ∈ filter (fun row0 : gmap string value =>
                              row0 !! pk = Some k) src) as Hbad
        by (by apply list_elem_of_filter).
      rewrite Hf in Hbad. inversion Hbad.
    - by apply (proj2 (last_is_Some (x :: xs))). }
  destruct (process_rows_last_wins _ _ _ _ _ _ _ _ _ _ _ Hrows Hnn Hlast)
    as (h & r & _ & Hhead & _).
  rewrite <- lookup_current_count in Hle |- * by done.
  destruct (filter (fun r0 => is_current_of pk k r0) (view c1)) as [|y ys];
    [discriminate|]. simpl in *. lia.
Qed.

(** X15. When no key value has more than one current row in the history
    table and no source row has a null key, after a run that commits the
    one current row of a key that occurs in the source carries the digest
    of the last source row with that key: of several source rows with one
    key, the last one decides. *)
Theorem run_last_occurrence_wins fault pk attrs src ts db s c k row :
  current_at_most_one pk db ->
  Forall (fun row => row !! pk <> Some VNull) src ->
  run_scd_pipeline fault choose pk attrs src ts db = Returned s c ->
  last_source_row pk k src = Some row ->
  exists h r,
    generate_hash row attrs = Some h /\
    filter (fun r => hkey pk r = k /\ is_current r = VInt 1) (persisted c)
    = [r] /\
    row_hash r = VText h.
Proof.
  intros Hinv Hkeys H Hlast.
  apply run_Returned in H as (cnt & c1 & Hrows & _ & _ & ->). simpl.
  assert (k <> VNull) as Hnn.
  { pose proof Hlast as Hin. unfold last_source_row in Hin.
    apply last_Some_elem_of, list_elem_of_filter in Hin as [Hk Hin].
    rewrite Forall_forall in Hkeys. intros ->. by apply (Hkeys row Hin). }
  destruct (process_rows_last_wins _ _ _ _ _ _ _ _ _ _ _ Hrows Hnn Hlast)
    as (h & r & Hh & Hfetch & Hhash).
  exists h, r. split; [exact Hh|]. split; [|exact Hhash].
  pose proof (process_rows_at_most_one _ _ _ _ _ _ _ _ _
                Hkeys Hrows Hinv k) as Hle.
  rewrite <- lookup_current_count in Hle by done.
  rewrite <- (list_filter_iff (fun r => is_current_of pk k r) _ (view c1)
                (fun r => is_current_of_iff pk k r Hnn)).
  destruct (filter (fun r0 => is_current_of pk k r0) (view c1))
    as [|y [|z zs]]; [discriminate| |simpl in Hle; lia].
  rewrite fetchone_singleton in Hfetch. congruence.
Qed.

End Lookup.

(** * The properties at concrete inputs *)

(** The CHANGED case at a concrete input: a stored widget and a source
    row with a new price. *)
Lemma process_row_three_way_witness :
  new_version widget widget_hash "2026-01-19 09:00:00"
  ∈ filter (fun r : hrow =>
              VInt 1 <> VNull /\ hkey "id" r = VInt 1 /\ is_current r = VInt 1)
      [new_version widget widget_hash "2026-01-19 09:00:00"] /\
  process_row no_faults first_match "id" sample_attrs "2026-01-20 09:00:00"
    (Counters 0 0 0) widget_repriced
    (connect [new_version widget widget_hash "2026-01-19 09:00:00"])
  = Ok (Counters 0 1 0)
       (Conn [new_version widget widget_hash "2026-01-19 09:00:00"]
          (Some [HRow widget (VText widget_hash) (VText "2026-01-19 09:00:00")
                   (VText "2026-01-20 09:00:00") (VInt 0);
                 HRow widget_repriced
                   (VText "41206b82a86ef9f2995310bee2f388b4")
                   (VText "2026-01-20 09:00:00")
                   (VText "9999-12-31 23:59:59") (VInt 1)])
          3).
Proof.
  exact (process_row_three_way first_match "id" sample_attrs
           "2026-01-20 09:00:00" (Counters 0 0 0) widget_repriced
           (connect [new_version widget widget_hash "2026-01-19 09:00:00"])
           (VInt 1) "41206b82a86ef9f2995310bee2f388b4"
           ltac:(vm_compute; reflexivity) ltac:(vm_compute; reflexivity)).
Defined.

Lemma summary_counts_add_up_witness :
  run_scd_pipeline no_faults first_match "id" sample_attrs
    [widget_repriced; gadget; anonymous] "2026-01-20 09:00:00"
    [new_version widget widget_hash "2026-01-19 09:00:00";
     new_version gadget "fd2d34f1dfe107c8125fdfb28a5e8563"
       "2026-01-19 09:00:00"]
  = Returned (Summary 1 1 1 3)
      (Conn [expire "2026-01-20 09:00:00"
               (new_version widget widget_hash "2026-01-19 09:00:00");
             new_version gadget "fd2d34f1dfe107c8125fdfb28a5e8563"
               "2026-01-19 09:00:00";
             new_version widget_repriced "41206b82a86ef9f2995310bee2f388b4"
               "2026-01-20 09:00:00";
             new_version anonymous "2d560e9e02ac1f39e89652b880002c5d"
               "2026-01-20 09:00:00"]
         None 7) /\
  (1 + 1 + 1 = 3)%nat /\ 3%nat = 3%nat.
Proof.
  split; [vm_compute; reflexivity|].
  exact (summary_counts_add_up first_match no_faults "id" sample_attrs
           [widget_repriced; gadget; anonymous] "2026-01-20 09:00:00"
           [new_version widget widget_hash "2026-01-19 09:00:00";
            new_version gadget "fd2d34f1dfe107c8125fdfb28a5e8563"
              "2026-01-19 09:00:00"]
           (Summary 1 1 1 3) _ ltac:(vm_compute; reflexivity)).
Defined.

(** The store fails the UPDATE of the second row, after the first row's
    INSERT went through. *)
Lemma run_failure_rolls_back_witness :
  process_rows (fault_at 3) first_match "id" sample_attrs "2026-01-20 09:00:00"
    (Counters 0 0 0) [widget; gadget_repriced]
    (connect [new_version gadget "fd2d34f1dfe107c8125fdfb28a5e8563"
                "2026-01-19 09:00:00"])
  = Raise SqliteError
      (Conn [new_version gadget "fd2d34f1dfe107c8125fdfb28a5e8563"
               "2026-01-19 09:00:00"]
         (Some [new_version gadget "fd2d34f1dfe107c8125fdfb28a5e8563"
                  "2026-01-19 09:00:00";
                new_version widget widget_hash "2026-01-20 09:00:00"])
         4) /\
  database
    (run_scd_pipeline (fault_at 3) first_match "id" sample_attrs
        [widget; gadget_repriced]
       "2026-01-20 09:00:00"
       [new_version gadget "fd2d34f1dfe107c8125fdfb28a5e8563"
          "2026-01-19 09:00:00"])
  = [new_version gadget "fd2d34f1dfe107c8125fdfb28a5e8563"
       "2026-01-19 09:00:00"].
Proof.
  split; [vm_compute; reflexivity|].
  exact (proj2 (run_failure_rolls_back first_match (fault_at 3)
           "id" sample_attrs
                  [widget; gadget_repriced] "2026-01-20 09:00:00"
                  [new_version gadget "fd2d34f1dfe107c8125fdfb28a5e8563"
                     "2026-01-19 09:00:00"]
                  _ ltac:(vm_compute; reflexivity))).
Defined.

Lemma run_keeps_current_unique_witness :
  current_unique "id"
    [expire "2026-01-20 09:00:00"
       (new_version widget widget_hash "2026-01-19 09:00:00");
     new_version gadget "fd2d34f1dfe107c8125fdfb28a5e8563"
       "2026-01-19 09:00:00";
     new_version widget_repriced "41206b82a86ef9f2995310bee2f388b4"
       "2026-01-20 09:00:00"].
Proof.
  exact (run_keeps_current_unique first_match no_faults "id" sample_attrs
           [widget_repriced; gadget] "2026-01-20 09:00:00"
           [new_version widget widget_hash "2026-01-19 09:00:00";
            new_version gadget "fd2d34f1dfe107c8125fdfb28a5e8563"
              "2026-01-19 09:00:00"]
           (Summary 0 1 1 2)
           (Conn [expire "2026-01-20 09:00:00"
                    (new_version widget widget_hash "2026-01-19 09:00:00");
                  new_version gadget "fd2d34f1dfe107c8125fdfb28a5e8563"
                    "2026-01-19 09:00:00";
                  new_version widget_repriced
                    "41206b82a86ef9f2995310bee2f388b4" "2026-01-20 09:00:00"]
              None 5)
           ltac:(repeat constructor)
           ltac:(repeat constructor; vm_compute; discriminate)
           ltac:(vm_compute; reflexivity)).
Defined.


Lemma run_accepts_any_keys_witness :
  exists s c,
    run_scd_pipeline no_faults first_match "id" sample_attrs
      [anonymous; widget; widget_repriced] "2026-01-20 09:00:00" []
    = Returned s c /\
    total_count s = 3%nat /\
    forall row, row ∈ [anonymous; widget; widget_repriced] ->
      row !! "id" = Some VNull ->
      exists h, generate_hash row sample_attrs = Some h /\
                new_version row h "2026-01-20 09:00:00" ∈ persisted c.
Proof.
  exact (run_accepts_any_keys first_match "id" sample_attrs
           [anonymous; widget; widget_repriced] "2026-01-20 09:00:00" []
           ltac:(repeat first [split | constructor | by eexists])).
Defined.

Lemma second_run_changes_nothing_witness :
  run_scd_pipeline no_faults first_match "id" sample_attrs [widget; gadget]
    "2026-01-21 09:00:00"
    [new_version widget widget_hash "2026-01-20 09:00:00";
     new_version gadget "fd2d34f1dfe107c8125fdfb28a5e8563"
       "2026-01-20 09:00:00"]
  = Returned (Summary 0 0 2 2)
      (Conn [new_version widget widget_hash "2026-01-20 09:00:00";
             new_version gadget "fd2d34f1dfe107c8125fdfb28a5e8563"
               "2026-01-20 09:00:00"]
         None 3).
Proof.
  exact (second_run_changes_nothing first_match no_faults "id" sample_attrs
           [widget; gadget] "2026-01-20 09:00:00" "2026-01-21 09:00:00" []
           (Summary 2 0 0 2)
           (Conn [new_version widget widget_hash "2026-01-20 09:00:00";
                  new_version gadget "fd2d34f1dfe107c8125fdfb28a5e8563"
                    "2026-01-20 09:00:00"]
              None 5)
           ltac:(apply (bool_decide_unpack _); vm_compute; exact I)
           ltac:(repeat constructor; vm_compute; discriminate)
           ltac:(vm_compute; reflexivity)).
Defined.

Lemma generate_hash_digest_witness :
  exists vals,
    Forall2 (fun a v => widget !! a = Some v) sample_attrs vals /\
    generate_hash widget sample_attrs
    = Some (MD5.hexdigest (hyphenated (py_str <$> vals))) /\
    String.length (MD5.hexdigest (hyphenated (py_str <$> vals))) = 32%nat /\
    forall row', Forall (fun a => row' !! a = widget !! a) sample_attrs ->
      generate_hash row' sample_attrs
      = Some (MD5.hexdigest (hyphenated (py_str <$> vals))).
Proof.
  exact (generate_hash_digest widget sample_attrs
           ltac:(repeat first [constructor | by eexists])).
Defined.

Lemma generate_hash_sensitivity_witness :
  (forall row',
     Forall (fun b => row' !! b = widget !! b) sample_attrs ->
     generate_hash row' sample_attrs = generate_hash widget sample_attrs) /\
  (combined_string (<["price" := VText "999"]> widget) sample_attrs
   = combined_string widget sample_attrs
   <-> py_str (VText "999") = py_str (VInt 999)) /\
  (py_str (VText "999") = py_str (VInt 999) ->
   generate_hash (<["price" := VText "999"]> widget) sample_attrs
   = generate_hash widget sample_attrs).
Proof.
  exact (generate_hash_sensitivity widget sample_attrs "price" (VInt 999)
           (VText "999")
           ltac:(repeat first [constructor | by eexists])
           ltac:(apply (bool_decide_unpack _); vm_compute; exact I)
           ltac:(vm_compute; reflexivity)).
Defined.

Lemma generate_hash_hyphen_collision_witness :
  generate_hash wifi_6e ["name"; "model"]
  = generate_hash wi_fi6e ["name"; "model"].
Proof.
  exact (generate_hash_hyphen_collision wifi_6e wi_fi6e
           "name" "model" "Wi" "Fi" "6E"
           ltac:(vm_compute; reflexivity) ltac:(vm_compute; reflexivity)
           ltac:(vm_compute; reflexivity) ltac:(vm_compute; reflexivity)).
Defined.

(** A source table without the name column: the run stops at its first
    row, also on a store that would fail the first statement. *)
Lemma run_KeyError_at_first_row_witness :
  run_scd_pipeline (fault_at 0) first_match "id" sample_attrs
    [nameless; nameless_too] "2026-01-20 09:00:00" history_day1
  = Failed KeyError (connect history_day1).
Proof.
  exact (run_KeyError_at_first_row first_match (fault_at 0) "id" sample_attrs
           [nameless; nameless_too] "2026-01-20 09:00:00" history_day1
           ltac:(intros r1 r2 H1 H2; set_unfold in H1; set_unfold in H2;
                 destruct H1 as [->|[->|[]]], H2 as [->|[->|[]]];
                 apply (bool_decide_unpack _); vm_compute; exact I)
           ltac:(intros H; apply Forall_cons in H as [[_ H] _];
                 apply Forall_cons in H as [[v Hv] _];
                 vm_compute in Hv; discriminate)).
Defined.

Lemma run_commit_failure_rolls_back_witness :
  run_scd_pipeline (fault_at 2) first_match "id" sample_attrs [widget]
    "2026-01-20 09:00:00" []
  = Failed SqliteError (Conn [] None 3).
Proof.
  exact (run_commit_failure_rolls_back first_match (fault_at 2)
           "id" sample_attrs
           [widget] "2026-01-20 09:00:00" [] (Counters 1 0 0)
           (Conn [] (Some [new_version widget widget_hash
                             "2026-01-20 09:00:00"]) 2)
           ltac:(vm_compute; reflexivity) ltac:(vm_compute; reflexivity)).
Defined.

Lemma run_statement_count_witness :
  stmts (Conn history_day2 None 5) = (1 + 2 + 0 + 2 * 1)%nat.
Proof.
  exact (run_statement_count first_match no_faults "id" sample_attrs
           [widget_repriced; gadget] "2026-01-20 09:00:00" history_day1
           (Summary 0 1 1 2) (Conn history_day2 None 5)
           ltac:(vm_compute; reflexivity)).
Defined.

Lemma run_history_growth_witness :
  length (persisted (Conn history_day2 None 5))
  = (length history_day1 + 0 + 1)%nat.
Proof.
  exact (run_history_growth first_match no_faults "id" sample_attrs
           [widget_repriced; gadget] "2026-01-20 09:00:00" history_day1
           (Summary 0 1 1 2) (Conn history_day2 None 5)
           ltac:(vm_compute; reflexivity)).
Defined.

Lemma run_returned_no_statement_failed_witness : fault_at 5 4 = false.
Proof.
  exact (run_returned_no_statement_failed first_match (fault_at 5)
           "id" sample_attrs
           [widget_repriced; gadget] "2026-01-20 09:00:00" history_day1
           (Summary 0 1 1 2) (Conn history_day2 None 5)
           ltac:(vm_compute; reflexivity) 4%nat ltac:(simpl; lia)).
Defined.

Lemma run_depends_on_issued_statements_witness :
  run_scd_pipeline (fault_at 7) first_match "id" sample_attrs
    [widget_repriced; gadget]
    "2026-01-20 09:00:00" history_day1
  = run_scd_pipeline no_faults first_match "id" sample_attrs
      [widget_repriced; gadget]
      "2026-01-20 09:00:00" history_day1.
Proof.
  exact (run_depends_on_issued_statements first_match (fault_at 7) no_faults
           "id"
           sample_attrs [widget_repriced; gadget] "2026-01-20 09:00:00"
           history_day1
           ltac:(intros n Hn; unfold fault_at, no_faults;
                 apply bool_decide_eq_false; simpl in Hn; lia)).
Defined.

Lemma run_leaves_closed_rows_and_absent_keys_witness :
  database
    (run_scd_pipeline no_faults first_match "id" sample_attrs [widget_repriced]
       "2026-01-20 09:00:00" history_day1) !! 1%nat
  = Some (new_version gadget "fd2d34f1dfe107c8125fdfb28a5e8563"
            "2026-01-19 09:00:00").
Proof.
  exact (run_leaves_closed_rows_and_absent_keys first_match no_faults
           "id" sample_attrs
           [widget_repriced] "2026-01-20 09:00:00" history_day1 1%nat
           (new_version gadget "fd2d34f1dfe107c8125fdfb28a5e8563"
              "2026-01-19 09:00:00")
           ltac:(reflexivity)
           ltac:(right; intros row Hin;
                 apply list_elem_of_singleton in Hin as ->;
                 vm_compute; discriminate)).
Defined.

Lemma run_closed_row_has_successor_witness :
  expire "2026-01-20 09:00:00"
    (new_version widget widget_hash "2026-01-19 09:00:00")
  = expire "2026-01-20 09:00:00"
      (new_version widget widget_hash "2026-01-19 09:00:00") /\
  exists j n,
    (length history_day1 <= j)%nat /\
    persisted (Conn history_day2 None 5) !! j = Some n /\
    hkey "id" n
    = hkey "id" (new_version widget widget_hash "2026-01-19 09:00:00") /\
    row_start_date n
    = row_end_date
        (expire "2026-01-20 09:00:00"
           (new_version widget widget_hash "2026-01-19 09:00:00")).
Proof.
  exact (run_closed_row_has_successor first_match no_faults "id" sample_attrs
           [widget_repriced; gadget] "2026-01-20 09:00:00" history_day1
           (Summary 0 1 1 2) (Conn history_day2 None 5) 0%nat
           (new_version widget widget_hash "2026-01-19 09:00:00")
           (expire "2026-01-20 09:00:00"
              (new_version widget widget_hash "2026-01-19 09:00:00"))
           ltac:(vm_compute; reflexivity) ltac:(reflexivity)
           ltac:(reflexivity) ltac:(vm_compute; discriminate)).
Defined.

Lemma run_appended_rows_witness :
  exists row h,
    row ∈ [widget_repriced; gadget] /\
    generate_hash row sample_attrs = Some h /\
    cols (new_version widget_repriced "41206b82a86ef9f2995310bee2f388b4"
            "2026-01-20 09:00:00") = row /\
    row_hash (new_version widget_repriced "41206b82a86ef9f2995310bee2f388b4"
                "2026-01-20 09:00:00") = VText h /\
    row_start_date
      (new_version widget_repriced "41206b82a86ef9f2995310bee2f388b4"
         "2026-01-20 09:00:00") = VText "2026-01-20 09:00:00" /\
    ((is_current
        (new_version widget_repriced "41206b82a86ef9f2995310bee2f388b4"
           "2026-01-20 09:00:00") = VInt 1 /\
      row_end_date
        (new_version widget_repriced "41206b82a86ef9f2995310bee2f388b4"
           "2026-01-20 09:00:00") = VText "9999-12-31 23:59:59")
     \/ (is_current
           (new_version widget_repriced "41206b82a86ef9f2995310bee2f388b4"
              "2026-01-20 09:00:00") = VInt 0 /\
         row_end_date
           (new_version widget_repriced "41206b82a86ef9f2995310bee2f388b4"
              "2026-01-20 09:00:00") = VText "2026-01-20 09:00:00")).
Proof.
  exact (run_appended_rows first_match no_faults "id" sample_attrs
           [widget_repriced; gadget] "2026-01-20 09:00:00" history_day1
           (Summary 0 1 1 2) (Conn history_day2 None 5) 2%nat
           (new_version widget_repriced "41206b82a86ef9f2995310bee2f388b4"
              "2026-01-20 09:00:00")
           ltac:(vm_compute; reflexivity) ltac:(simpl; lia)
           ltac:(reflexivity)).
Defined.

Lemma run_keeps_flag_consistent_witness :
  flag_consistent
    (database
       (run_scd_pipeline no_faults first_match "id" sample_attrs
          [widget_repriced; gadget] "2026-01-20 09:00:00" history_day1)).
Proof.
  exact (run_keeps_flag_consistent first_match no_faults "id" sample_attrs
           [widget_repriced; gadget] "2026-01-20 09:00:00" history_day1
           ltac:(vm_compute; discriminate)
           ltac:(repeat (constructor; [by split|]); constructor)).
Defined.

(** The stock of the widget changes, its name and price do not. *)
Lemma unmonitored_change_not_recorded_witness :
  process_row no_faults first_match "id" sample_attrs "2026-01-20 09:00:00"
    (Counters 0 0 0) widget_restocked
    (connect [new_version widget_in_stock widget_hash "2026-01-19 09:00:00"])
  = Ok (Counters 0 0 1)
       (Conn [new_version widget_in_stock widget_hash "2026-01-19 09:00:00"]
          None 1).
Proof.
  exact (unmonitored_change_not_recorded first_match "id" sample_attrs
           "2026-01-20 09:00:00" (Counters 0 0 0) widget_restocked
           widget_in_stock
           (connect [new_version widget_in_stock widget_hash
                       "2026-01-19 09:00:00"])
           (VInt 1) widget_hash
           (new_version widget_in_stock widget_hash "2026-01-19 09:00:00")
           ltac:(vm_compute; reflexivity) ltac:(vm_compute; reflexivity)
           ltac:(vm_compute; reflexivity) ltac:(reflexivity)
           ltac:(repeat constructor)).
Defined.

(** The widget twice in one source, at two prices. *)
Lemma run_last_occurrence_wins_witness :
  exists h r,
    generate_hash widget_repriced sample_attrs = Some h /\
    filter (fun r => hkey "id" r = VInt 1 /\ is_current r = VInt 1)
      (persisted
         (Conn [expire "2026-01-20 09:00:00"
                  (new_version widget widget_hash "2026-01-20 09:00:00");
                new_version widget_repriced
                  "41206b82a86ef9f2995310bee2f388b4" "2026-01-20 09:00:00"]
            None 6))
    = [r] /\
    row_hash r = VText h.
Proof.
  exact (run_last_occurrence_wins first_match no_faults "id" sample_attrs
           [widget; widget_repriced] "2026-01-20 09:00:00" []
           (Summary 1 1 0 2)
           (Conn [expire "2026-01-20 09:00:00"
                    (new_version widget widget_hash "2026-01-20 09:00:00");
                  new_version widget_repriced
                    "41206b82a86ef9f2995310bee2f388b4" "2026-01-20 09:00:00"]
              None 6)
           (VInt 1) widget_repriced
           ltac:(intros k; unfold current_count; rewrite filter_nil;
                 simpl; lia)
           ltac:(repeat constructor; vm_compute; discriminate)
           ltac:(vm_compute; reflexivity)
           ltac:(vm_compute; reflexivity)).
Defined.

Lemma from_config_runs_the_loop_witness :
  run_scd_pipeline_from_config no_faults first_match
    (Parsed (Config (Some "id") (Some (Names sample_attrs)))) true
    [widget_repriced; gadget] "2026-01-20 09:00:00" history_day1
  = Connected
      (outcome_later 1
         (run_scd_pipeline (fun n => no_faults (S n)) first_match "id"
            sample_attrs [widget_repriced; gadget] "2026-01-20 09:00:00"
            history_day1)).
Proof.
  exact (from_config_runs_the_loop first_match no_faults
           (Config (Some "id") (Some (Names sample_attrs)))
           [widget_repriced; gadget] "2026-01-20 09:00:00" history_day1
           "id" sample_attrs
           ltac:(reflexivity) ltac:(reflexivity) ltac:(reflexivity)).
Defined.

(** The schema the set-up script leaves, on a store that does not fail. *)
Lemma verify_setup_true_iff_witness :
  verify_setup true no_faults setup_schema = Verdict true /\
  verify_setup false no_faults setup_schema = VerifyRaised.
Proof.
  pose proof (verify_setup_true_iff true no_faults setup_schema
                ltac:(apply (bool_decide_unpack _); vm_compute; exact I))
    as [_ [Htrue _]].
  pose proof (verify_setup_true_iff false no_faults setup_schema
                ltac:(apply (bool_decide_unpack _); vm_compute; exact I))
    as [Hraised _].
  split; [|by apply Hraised].
  apply Htrue. split; [reflexivity|]. split; [reflexivity|].
  split; intros x Hx; unfold setup_tables, audit_names in Hx;
    set_unfold in Hx; destruct_or! Hx; subst x;
    first [by eexists | apply (bool_decide_unpack _); vm_compute; exact I].
Defined.

Lemma run_keeps_current_at_most_one_witness :
  current_at_most_one "id"
    (database
       (run_scd_pipeline no_faults first_match "id" sample_attrs
           [widget; gadget]
          "2026-01-20 09:00:00" [])).
Proof.
  exact (run_keeps_current_at_most_one first_match no_faults "id" sample_attrs
           [widget; gadget] "2026-01-20 09:00:00" []
           ltac:(intros k; unfold current_count; rewrite filter_nil;
                 simpl; lia)
           ltac:(repeat constructor; vm_compute; discriminate)).
Defined.

Lemma run_source_keys_have_one_current_witness :
  exists k,
    widget !! "id" = Some k /\
    current_count "id" k
      (persisted
         (Conn [new_version widget widget_hash "2026-01-20 09:00:00";
                new_version gadget "fd2d34f1dfe107c8125fdfb28a5e8563"
                  "2026-01-20 09:00:00"]
            None 5))
    = 1%nat.
Proof.
  exact (run_source_keys_have_one_current first_match no_faults
           "id" sample_attrs
           [widget; gadget] "2026-01-20 09:00:00" [] (Summary 2 0 0 2)
           (Conn [new_version widget widget_hash "2026-01-20 09:00:00";
                  new_version gadget "fd2d34f1dfe107c8125fdfb28a5e8563"
                    "2026-01-20 09:00:00"]
              None 5)
           widget
           ltac:(intros k; unfold current_count; rewrite filter_nil;
                 simpl; lia)
           ltac:(repeat constructor; vm_compute; discriminate)
           ltac:(vm_compute; reflexivity) ltac:(left)).
Defined.
